(** * GranStocks market-data engine: a shallow embedding

    The development follows the server sources:

    - [services/providers/alphavantage.ts]  (primary equities adapter)
    - [services/providers/binance.ts]       (crypto adapter and live feed)
    - [services/market-data.ts]             (aggregation router)
    - [services/price-history.ts]           (history store)
    - [routes.ts], POST /api/admin/screener/run (job trigger)

    JavaScript values are untyped at run time, so provider answers and cached
    payloads are kept as a small value type [jsval].  IEEE doubles and the
    library functions of the JS runtime ([parseFloat], [JSON.parse], [Date])
    are left abstract in the class [Runtime]; everything proved below holds
    for every runtime.  Asynchronous functions are written in a state and
    exception monad over a [world] that holds the stores of the process and
    records every outbound call in an event trace. *)

From stdpp Require Import base option list gmap strings pretty.
From Stdlib Require Import ZArith String Ascii Sorting.Sorted.

Local Open Scope string_scope.
Local Open Scope list_scope.
Local Open Scope Z_scope.

(** ** JavaScript values *)

Set Warnings "-register-all".

Inductive jsval (number : Type) : Type :=
  | JUndefined
  | JNull
  | JBool (b : bool)
  | JNum (n : number)
  | JStr (s : string)
  | JArr (items : list (jsval number))
  | JObj (fields : list (string * jsval number)).

Arguments JUndefined {number}.
Arguments JNull {number}.
Arguments JBool {number} b.
Arguments JNum {number} n.
Arguments JStr {number} s.
Arguments JArr {number} items.
Arguments JObj {number} fields.

(** What a rejected promise or a [throw] carries. *)
Inductive exn : Type :=
  | Error (msg : string)
  | SyntaxError
  | TypeError
  | RangeError
  | FetchFailed
  | DbError.

(** The JS runtime functions the sources call.  [number] stands for IEEE
    doubles.  Functions that can throw return an [option]; the caller turns
    [None] into the exception the runtime raises. *)
Class Runtime (number : Type) : Type := {
  (* numeric literal *)
  number_of_Z : Z → number;
  (* ToBoolean on a number: false for 0, -0 and NaN *)
  num_truthy : number → bool;
  (* ToString on a number, as in a template literal *)
  num_to_string : number → string;
  (* parseFloat(x) *)
  parseFloat : jsval number → number;
  (* JSON.parse(text); None is a SyntaxError *)
  JSON_parse : string → option (jsval number);
  (* JSON.stringify(x) *)
  JSON_stringify : jsval number → string;
  (* Math.floor(x / 1000) *)
  Math_floor_div_1000 : jsval number → number;
  (* new Date(x).getTime() *)
  Date_getTime : jsval number → number;
  (* new Date(x * 1000).toISOString().split('T')[0]; None is a RangeError *)
  Date_isoDay_of_seconds : jsval number → option string;
  (* d = new Date(now); d.setDate(d.getDate() - days);
     d.toISOString().split('T')[0]; None is a RangeError *)
  Date_isoDay_minus_days : Z → Z → option string;
  (* now - x > ms, for now = Date.now() *)
  elapsed_more_than : Z → jsval number → Z → bool;
  (* keys.sort((a, b) => new Date(a).getTime() - new Date(b).getTime()) *)
  sort_by_Date : list string → list string
}.

Inductive assetType : Type := STOCK | CRYPTO.


(** Replaces the first occurrence of the one-character pattern [c], as
    [s.replace(c, '')] does. *)
Fixpoint remove_first_char (c : ascii) (s : string) : string :=
  match s with
  | EmptyString => EmptyString
  | String a rest => if Ascii.eqb a c then rest else String a (remove_first_char c rest)
  end.

Definition lower_ascii (c : ascii) : ascii :=
  let n := nat_of_ascii c in
  if (65 <=? n)%nat && (n <=? 90)%nat then ascii_of_nat (n + 32) else c.

(** [s.toLowerCase()], on the ASCII letters *)
Fixpoint toLowerCase (s : string) : string :=
  match s with
  | EmptyString => EmptyString
  | String c rest => String (lower_ascii c) (toLowerCase rest)
  end.

(** [s.includes(pat)] *)
Fixpoint includes (pat s : string) : bool :=
  if String.prefix pat s then true
  else match s with
       | EmptyString => false
       | String _ rest => includes pat rest
       end.

Section Values.
Context {number : Type} `{RT : Runtime number}.

Local Abbreviation value := (jsval number).

(** ToBoolean *)
Definition truthy (v : value) : bool :=
  match v with
  | JUndefined | JNull => false
  | JBool b => b
  | JNum n => num_truthy n
  | JStr s => negb (String.eqb s "")
  | JArr _ | JObj _ => true
  end.

Fixpoint assoc (k : string) (fs : list (string * value)) : option value :=
  match fs with
  | [] => None
  | (k', v) :: rest => if String.eqb k' k then Some v else assoc k rest
  end.

(** The index a property key denotes, among the first [n] indices. *)
Definition index_of_key (k : string) (n : nat) : option nat :=
  List.find (λ i, String.eqb (pretty i) k) (seq 0%nat n).

(** Own data properties of a value that is not null or undefined: the fields
    of an object, the elements of an array, the characters of a string.
    [length] is answered by [js_length]. *)
Definition own (v : value) (k : string) : value :=
  match v with
  | JObj fs => default JUndefined (assoc k fs)
  | JArr l => default JUndefined (i ← index_of_key k (List.length l); l !! i)
  | JStr s => match i ← index_of_key k (String.length s); String.get i s with
              | Some c => JStr (String c EmptyString)
              | None => JUndefined
              end
  | _ => JUndefined
  end.

(** [v[k]] or [v.k]: reading a property of [undefined] or [null] is a
    TypeError. *)
Definition js_get (v : value) (k : string) : option value :=
  match v with
  | JUndefined | JNull => None
  | _ => Some (own v k)
  end.

(** [v.length] for the array-likes the sources meet; [None] stands for
    [undefined].  An object that carries an own [length] property is not
    told apart from one that does not. *)
Definition js_length (v : value) : option nat :=
  match v with
  | JArr l => Some (List.length l)
  | JStr s => Some (String.length s)
  | _ => None
  end.

(** [v[i]] for a loop index [i]; reading an index of [undefined] or [null]
    is a TypeError. *)
Definition js_index (v : value) (i : nat) : option value :=
  match v with
  | JUndefined | JNull => None
  | JArr l => Some (default JUndefined (l !! i))
  | JStr s => Some match String.get i s with
                   | Some c => JStr (String c EmptyString)
                   | None => JUndefined
                   end
  | JObj fs => Some (default JUndefined (assoc (pretty i) fs))
  | _ => Some JUndefined
  end.

(** [v === 'text'] *)
Definition is_string (v : value) (text : string) : bool :=
  match v with
  | JStr s => String.eqb s text
  | _ => false
  end.


(** ToString, as a template literal applies it.  An array is joined with
    commas, its null and undefined elements printing as nothing. *)
Fixpoint to_string (v : value) : string :=
  match v with
  | JUndefined => "undefined"
  | JNull => "null"
  | JBool true => "true"
  | JBool false => "false"
  | JNum n => num_to_string n
  | JStr s => s
  | JArr l =>
      (fix join (xs : list value) : string :=
         match xs with
         | [] => ""
         | x :: rest =>
             let shown := match x with
                          | JUndefined | JNull => ""
                          | _ => to_string x
                          end in
             match rest with
             | [] => shown
             | _ => shown +:+ "," +:+ join rest
             end
         end) l
  | JObj _ => "[object Object]"
  end.

(** [Object.keys(v)]; [None] is the TypeError on null and undefined. *)
Definition Object_keys (v : value) : option (list string) :=
  match v with
  | JUndefined | JNull => None
  | JObj fs => Some (fs.*1)
  | JArr l => Some (pretty <$> seq 0%nat (List.length l))
  | JStr s => Some (pretty <$> seq 0%nat (String.length s))
  | _ => Some []
  end.

(** [obj.k = v] on an object: replaces the property in place or appends it. *)
Fixpoint set_field (k : string) (v : value) (fs : list (string * value))
  : list (string * value) :=
  match fs with
  | [] => [(k, v)]
  | (k', v') :: rest =>
      if String.eqb k' k then (k', v) :: rest else (k', v') :: set_field k v rest
  end.
End Values.

(** ** The world: process state, stores and environment *)

(** A row of the persisted cache table.  [expiresAt] is in epoch
    milliseconds. *)
Record CacheRow : Type := {
  row_payloadJson : string;
  row_expiresAt : Z;
  row_source : string
}.

(** What [CacheService.getCacheConfig] hands to an adapter. *)
Record CacheEntry : Type := {
  payloadJson : string;
  isStale : bool;
  source : string
}.

(** One stored daily bar; [(ph_symbol, ph_date)] is the unique key
    [symbol_date]. *)
Record PriceHistoryRow (number : Type) : Type := {
  ph_symbol : string;
  ph_date : string;
  ph_assetType : assetType;
  ph_open : jsval number;
  ph_high : jsval number;
  ph_low : jsval number;
  ph_close : jsval number;
  ph_volume : jsval number
}.

Arguments ph_symbol {number} _.
Arguments ph_date {number} _.
Arguments ph_assetType {number} _.
Arguments ph_open {number} _.
Arguments ph_high {number} _.
Arguments ph_low {number} _.
Arguments ph_close {number} _.
Arguments ph_volume {number} _.

(** Answer of the network to one [fetch(url)]. *)
Inductive fetch_result (number : Type) : Type :=
  | NetworkDown
  | Response (ok : bool) (status : Z) (body : option (jsval number)).

Arguments NetworkDown {number}.
Arguments Response {number} ok status body.

(** Answer of a provider service whose source is not part of this
    development (Finnhub): it resolves with a value or rejects. *)
Inductive outcome (A : Type) : Type :=
  | Return (a : A)
  | Throw (e : exn).

Arguments Return {A} a.
Arguments Throw {A} e.

(** [readyState] of the streaming socket. *)
Inductive ready_state : Type := CONNECTING | OPEN | CLOSING | CLOSED.

(** Work started and not awaited. *)
Inductive task : Type :=
  | TaskBackfill (symbol : string) (a : assetType).

Inductive event : Type :=
  | EvFetch (url : string)
  | EvFinnhub (operation : string) (symbol : string)
  | EvCacheGet (key : string)
  | EvCacheSet (key : string) (ttlSeconds : Z) (src : string)
  | EvWsConnect (url : string)
  | EvWsSend (message : string)
  | EvDbFindMany (symbol : string) (cutoffDate : string)
  | EvDbUpsert (symbol : string) (date : string).

(** What surrounds the process and does not change while one request runs. *)
Record environment (number : Type) : Type := {
  (* Date.now(), epoch milliseconds *)
  clock : Z;
  (* process.env, with the defaults of the sources applied *)
  ALPHAVANTAGE_API_KEY : string;
  ALPHAVANTAGE_BASE_URL : string;
  BINANCE_REST_BASE_URL : string;
  BINANCE_WS_BASE_URL : string;
  (* the answer of the network to fetch(url) *)
  network : string → fetch_result number;
  (* the answer of FinnhubService.<operation>(arguments) *)
  finnhub : string → list (jsval number) → outcome (jsval number);
  (* whether the n-th write to the price history table is refused *)
  db_refuses : nat → bool
}.

Arguments clock {number} _.
Arguments ALPHAVANTAGE_API_KEY {number} _.
Arguments ALPHAVANTAGE_BASE_URL {number} _.
Arguments BINANCE_REST_BASE_URL {number} _.
Arguments BINANCE_WS_BASE_URL {number} _.
Arguments network {number} _ _.
Arguments finnhub {number} _ _ _.
Arguments db_refuses {number} _ _.

Record world (number : Type) : Type := {
  env : environment number;
  (* persisted stores *)
  cacheStore : gmap string CacheRow;
  priceHistory : list (PriceHistoryRow number);
  db_writes : nat;
  (* BinanceProvider's static fields *)
  ws : option ready_state;
  trackedSymbols : list string;
  memoryCache : gmap string (jsval number);
  (* promises started and not awaited *)
  spawned : list task;
  (* the calls made to the stores, the network and the socket, oldest first *)
  events : list event
}.

Arguments env {number} _.
Arguments cacheStore {number} _.
Arguments priceHistory {number} _.
Arguments db_writes {number} _.
Arguments ws {number} _.
Arguments trackedSymbols {number} _.
Arguments memoryCache {number} _.
Arguments spawned {number} _.
Arguments events {number} _.

Definition set_cacheStore {number} (c : gmap string CacheRow) (w : world number) : world number :=
  {| env := env w; cacheStore := c; priceHistory := priceHistory w;
     db_writes := db_writes w; ws := ws w; trackedSymbols := trackedSymbols w;
     memoryCache := memoryCache w; spawned := spawned w; events := events w |}.

Definition set_priceHistory {number} (t : list (PriceHistoryRow number)) (w : world number)
  : world number :=
  {| env := env w; cacheStore := cacheStore w; priceHistory := t;
     db_writes := db_writes w; ws := ws w; trackedSymbols := trackedSymbols w;
     memoryCache := memoryCache w; spawned := spawned w; events := events w |}.

Definition set_db_writes {number} (n : nat) (w : world number) : world number :=
  {| env := env w; cacheStore := cacheStore w; priceHistory := priceHistory w;
     db_writes := n; ws := ws w; trackedSymbols := trackedSymbols w;
     memoryCache := memoryCache w; spawned := spawned w; events := events w |}.

Definition set_ws {number} (s : option ready_state) (w : world number) : world number :=
  {| env := env w; cacheStore := cacheStore w; priceHistory := priceHistory w;
     db_writes := db_writes w; ws := s; trackedSymbols := trackedSymbols w;
     memoryCache := memoryCache w; spawned := spawned w; events := events w |}.

Definition set_trackedSymbols {number} (l : list string) (w : world number) : world number :=
  {| env := env w; cacheStore := cacheStore w; priceHistory := priceHistory w;
     db_writes := db_writes w; ws := ws w; trackedSymbols := l;
     memoryCache := memoryCache w; spawned := spawned w; events := events w |}.

Definition set_memoryCache {number} (m : gmap string (jsval number)) (w : world number)
  : world number :=
  {| env := env w; cacheStore := cacheStore w; priceHistory := priceHistory w;
     db_writes := db_writes w; ws := ws w; trackedSymbols := trackedSymbols w;
     memoryCache := m; spawned := spawned w; events := events w |}.

Definition set_spawned {number} (l : list task) (w : world number) : world number :=
  {| env := env w; cacheStore := cacheStore w; priceHistory := priceHistory w;
     db_writes := db_writes w; ws := ws w; trackedSymbols := trackedSymbols w;
     memoryCache := memoryCache w; spawned := l; events := events w |}.

Definition set_events {number} (l : list event) (w : world number) : world number :=
  {| env := env w; cacheStore := cacheStore w; priceHistory := priceHistory w;
     db_writes := db_writes w; ws := ws w; trackedSymbols := trackedSymbols w;
     memoryCache := memoryCache w; spawned := spawned w; events := l |}.

(** ** The monad of asynchronous functions

    An [async] function run to completion: it reads and updates the world
    and either resolves ([Return]) or rejects ([Throw]).  Console output is
    not modelled. *)

Definition M (number : Type) (A : Type) : Type :=
  world number → outcome A * world number.

Definition ret {number A} (a : A) : M number A :=
  λ w, (Return a, w).

(** [const x = await m; k]: a rejection of [m] is propagated. *)
Definition bind {number A B} (m : M number A) (k : A → M number B) : M number B :=
  λ w,
    match m w with
    | (Return a, w') => k a w'
    | (Throw e, w') => (Throw e, w')
    end.

Declare Scope async_scope.
Delimit Scope async_scope with async.
Bind Scope async_scope with M.

Notation "x <- m ;; k" := (bind m (λ x, k))
  (at level 100, m at next level, right associativity) : async_scope.
Notation "m ;; k" := (bind m (λ _, k))
  (at level 100, right associativity) : async_scope.

Local Open Scope async_scope.

Definition throw {number A} (e : exn) : M number A :=
  λ w, (Throw e, w).

(** [try { body } catch (e) { handler(e) }] *)
Definition try_catch {number A} (body : M number A) (handler : exn → M number A)
  : M number A :=
  λ w,
    match body w with
    | (Return a, w') => (Return a, w')
    | (Throw e, w') => handler e w'
    end.

(** Turns the [None] of a throwing runtime function into its exception. *)
Definition or_throw {number A} (e : exn) (o : option A) : M number A :=
  match o with
  | Some a => ret a
  | None => throw e
  end.

Definition reads {number A} (f : world number → A) : M number A :=
  λ w, (Return (f w), w).

Definition modify {number} (f : world number → world number) : M number unit :=
  λ w, (Return tt, f w).

Definition emit {number} (ev : event) : M number unit :=
  modify (λ w, set_events (events w ++ [ev]) w).

(** [xs.map(f)] for a callback that may throw. *)
Fixpoint mapM {number A B} (f : A → M number B) (xs : list A) : M number (list B) :=
  match xs with
  | [] => ret []
  | x :: rest => y <- f x ;; ys <- mapM f rest ;; ret (y :: ys)
  end.

(** ** Cache Store (services/cache.ts) *)

Section CacheService.
Context {number : Type}.

(** Modelled from the spec: [CacheService.getCacheConfig], whose source
    (services/cache.ts) is not part of this development.  [get(key)] gives the
    entry or nothing; [isStale] is derived as now > expiresAt. *)
Definition CacheService_getCacheConfig (key : string) : M number (option CacheEntry) :=
  _ <- emit (EvCacheGet key) ;;
  now <- reads (λ w, clock (env w)) ;;
  store <- reads cacheStore ;;
  ret (row ← store !! key;
        Some {| payloadJson := row_payloadJson row;
                isStale := bool_decide (row_expiresAt row < now);
                source := row_source row |}).

(** Modelled from the spec: [CacheService.setCacheConfig], whose source is
    not part of this development.  [set(key, payload, ttlSeconds, source)]
    replaces any prior entry for the key; the entry expires [ttlSeconds]
    after now. *)
Definition CacheService_setCacheConfig (key payload : string) (ttlSeconds : Z) (src : string)
  : M number unit :=
  _ <- emit (EvCacheSet key ttlSeconds src) ;;
  now <- reads (λ w, clock (env w)) ;;
  modify (λ w, set_cacheStore
                 (<[key := {| row_payloadJson := payload;
                              row_expiresAt := now + ttlSeconds * 1000;
                              row_source := src |}]> (cacheStore w)) w).

(** [cached && !cached.isStale]: the entry when it is a hit. *)
Definition cache_hit (cached : option CacheEntry) : option CacheEntry :=
  match cached with
  | Some c => if isStale c then None else Some c
  | None => None
  end.
End CacheService.

(** ** The network *)

Record response (number : Type) : Type := {
  res_ok : bool;
  res_status : Z;
  res_body : option (jsval number)
}.

Arguments res_ok {number} _.
Arguments res_status {number} _.
Arguments res_body {number} _.

Section Network.
Context {number : Type}.

(** [await fetch(url)]: one outbound call; a network failure rejects. *)
Definition fetch (url : string) : M number (response number) :=
  _ <- emit (EvFetch url) ;;
  net <- reads (λ w, network (env w)) ;;
  match net url with
  | NetworkDown => throw FetchFailed
  | Response ok status body =>
      ret {| res_ok := ok; res_status := status; res_body := body |}
  end.

(** [await res.json()]: a body that is not JSON rejects. *)
Definition res_json (res : response number) : M number (jsval number) :=
  or_throw SyntaxError (res_body res).

(** [await FinnhubService.<operation>(symbol, ...)] *)
Definition FinnhubService (operation symbol : string) (more : list (jsval number))
  : M number (jsval number) :=
  _ <- emit (EvFinnhub operation symbol) ;;
  fh <- reads (λ w, finnhub (env w)) ;;
  match fh operation (JStr symbol :: more) with
  | Return v => ret v
  | Throw e => throw e
  end.
End Network.

(** ** AlphaVantageProvider (services/providers/alphavantage.ts) *)

Section AlphaVantageProvider.
Context {number : Type} `{RT : Runtime number}.

Local Abbreviation value := (jsval number).

(** [JSON.parse(text)] *)
Definition JSON_parse_M (text : string) : M number value :=
  or_throw SyntaxError (JSON_parse text).

(** [v[k]], a TypeError on null and undefined *)
Definition get (v : value) (k : string) : M number value :=
  or_throw TypeError (js_get v k).

(** [v.replace('%', '')]: only a string has the method. *)
Definition replace_percent (v : value) : M number value :=
  match v with
  | JStr s => ret (JStr (remove_first_char "%"%char s))
  | _ => throw TypeError
  end.

(** [data['Note'] || data['Information']] *)
Definition limit_reached (data : value) : M number bool :=
  note <- get data "Note" ;;
  if truthy note then ret true
  else info <- get data "Information" ;; ret (truthy info).

Definition AlphaVantageProvider_getQuote (symbol : string) : M number value :=
  let cacheKey := "quote:av:" +:+ symbol in
  cached <- CacheService_getCacheConfig cacheKey ;;
  match cache_hit cached with
  | Some c => JSON_parse_M (payloadJson c)
  | None =>
      try_catch
        (base <- reads (λ w, ALPHAVANTAGE_BASE_URL (env w)) ;;
         apikey <- reads (λ w, ALPHAVANTAGE_API_KEY (env w)) ;;
         let url := base +:+ "?function=GLOBAL_QUOTE&symbol=" +:+ symbol
                         +:+ "&apikey=" +:+ apikey in
         res <- fetch url ;;
         if negb (res_ok res) then throw (Error ("AV Error " +:+ pretty (res_status res)))
         else
           data <- res_json res ;;
           limited <- limit_reached data ;;
           if limited then throw (Error "API limit reached")
           else
             quote <- get data "Global Quote" ;;
             if negb (truthy quote) || negb (truthy (own quote "05. price"))
             then throw (Error "No quote data")
             else
               pct <- replace_percent (own quote "10. change percent") ;;
               let payload :=
                 JObj [("symbol", JStr symbol);
                       ("assetType", JStr "STOCK");
                       ("price", JNum (parseFloat (own quote "05. price")));
                       ("changeAbs", JNum (parseFloat (own quote "09. change")));
                       ("changePct", JNum (parseFloat pct));
                       ("ts", JNum (Date_getTime (own quote "07. latest trading day")));
                       ("source", JStr "ALPHAVANTAGE");
                       ("isStale", JBool false)] in
               _ <- CacheService_setCacheConfig cacheKey (JSON_stringify payload) 900
                     "ALPHAVANTAGE" ;;
               ret payload)
        (λ e, throw e)
  end.

(** [Math.floor(new Date(d).getTime() / 1000)] *)
Definition epoch_seconds (d : string) : value :=
  JNum (Math_floor_div_1000 (JNum (Date_getTime (JStr d)))).

(** [dates.map(d => parseFloat(ts[d][k1] || ts[d][k2]))]; with [k2] absent
    it is [dates.map(d => parseFloat(ts[d][k1]))]. *)
Definition column (ts : value) (dates : list string) (k1 : string) (k2 : option string)
  : M number value :=
  cells <- mapM (λ d : string,
             first <- get (own ts d) k1 ;;
             match k2 with
             | None => ret (JNum (parseFloat first))
             | Some k =>
                 if truthy first then ret (JNum (parseFloat first))
                 else second <- get (own ts d) k ;; ret (JNum (parseFloat second))
             end) dates ;;
  ret (JArr cells).

Definition AlphaVantageProvider_getCandles (symbol : string) (isIntraday : bool)
  : M number value :=
  let cacheKey := "candle:av:" +:+ symbol +:+ ":"
                  +:+ (if isIntraday then "intraday" else "daily") in
  cached <- CacheService_getCacheConfig cacheKey ;;
  match cache_hit cached with
  | Some c => JSON_parse_M (payloadJson c)
  | None =>
      try_catch
        (base <- reads (λ w, ALPHAVANTAGE_BASE_URL (env w)) ;;
         apikey <- reads (λ w, ALPHAVANTAGE_API_KEY (env w)) ;;
         let func := if isIntraday then "TIME_SERIES_INTRADAY"
                     else "TIME_SERIES_DAILY_ADJUSTED" in
         let intervalParam := if isIntraday then "&interval=60min" else "" in
         let url := base +:+ "?function=" +:+ func +:+ "&symbol=" +:+ symbol
                         +:+ "&outputsize=full" +:+ intervalParam
                         +:+ "&apikey=" +:+ apikey in
         res <- fetch url ;;
         data <- res_json res ;;
         limited <- limit_reached data ;;
         if limited then throw (Error "API limit reached")
         else
           keys <- or_throw TypeError (Object_keys data) ;;
           match List.find (includes "Time Series") keys with
           | None => throw (Error "Invalid AV format")
           | Some timeSeriesKey =>
               let ts := own data timeSeriesKey in
               tsKeys <- or_throw TypeError (Object_keys ts) ;;
               let dates := sort_by_Date tsKeys in
               o <- column ts dates "1. open" None ;;
               h <- column ts dates "2. high" None ;;
               l <- column ts dates "3. low" None ;;
               c <- column ts dates "4. close" (Some "4. adjusted close") ;;
               v <- column ts dates "6. volume" (Some "5. volume") ;;
               let payload :=
                 JObj [("s", JStr "ok");
                       ("t", JArr (epoch_seconds <$> dates));
                       ("o", o); ("h", h); ("l", l); ("c", c); ("v", v);
                       ("source", JStr "ALPHAVANTAGE")] in
               _ <- CacheService_setCacheConfig cacheKey (JSON_stringify payload)
                     (if isIntraday then 1800 else 86400) "ALPHAVANTAGE" ;;
               ret payload
           end)
        (λ e, throw e)
  end.

Definition AlphaVantageProvider_getOverview (symbol : string) : M number value :=
  let cacheKey := "overview:av:" +:+ symbol in
  cached <- CacheService_getCacheConfig cacheKey ;;
  match cache_hit cached with
  | Some c => JSON_parse_M (payloadJson c)
  | None =>
      try_catch
        (base <- reads (λ w, ALPHAVANTAGE_BASE_URL (env w)) ;;
         apikey <- reads (λ w, ALPHAVANTAGE_API_KEY (env w)) ;;
         let url := base +:+ "?function=OVERVIEW&symbol=" +:+ symbol
                         +:+ "&apikey=" +:+ apikey in
         res <- fetch url ;;
         data <- res_json res ;;
         limited <- limit_reached data ;;
         if limited then throw (Error "API limit reached")
         else
           keys <- or_throw TypeError (Object_keys data) ;;
           if bool_decide (List.length keys = 0%nat) then throw (Error "No overview found")
           else
             _ <- CacheService_setCacheConfig cacheKey (JSON_stringify data) (86400 * 7)
                   "ALPHAVANTAGE" ;;
             ret data)
        (λ e, throw e)
  end.
End AlphaVantageProvider.

(** ** BinanceProvider (services/providers/binance.ts) *)

Section BinanceProvider.
Context {number : Type} `{RT : Runtime number}.

Local Abbreviation value := (jsval number).

(** [initWebSocket]: opens the one streaming connection unless a handle
    exists.  The handlers it installs are [BinanceProvider_onOpen] and
    [BinanceProvider_onMessage]; the reconnect timer of the close handler is
    not part of this development. *)
Definition BinanceProvider_initWebSocket : M number unit :=
  handle <- reads ws ;;
  match handle with
  | Some _ => ret tt
  | None =>
      base <- reads (λ w, BINANCE_WS_BASE_URL (env w)) ;;
      _ <- modify (set_ws (Some CONNECTING)) ;;
      emit (EvWsConnect (base +:+ "/ws"))
  end.

(** The SUBSCRIBE command for a list of streams. *)
Definition subscribe_message (params : list string) (id : value) : string :=
  JSON_stringify (JObj [("method", JStr "SUBSCRIBE");
                        ("params", JArr (JStr <$> params));
                        ("id", id)]).

Definition BinanceProvider_subscribeToTracked : M number unit :=
  handle <- reads ws ;;
  tracked <- reads trackedSymbols ;;
  match handle, tracked with
  | Some OPEN, _ :: _ =>
      emit (EvWsSend (subscribe_message ((λ s, toLowerCase s +:+ "@ticker") <$> tracked)
                        (JNum (number_of_Z 1))))
  | _, _ => ret tt
  end.

(** The ['open'] handler. *)
Definition BinanceProvider_onOpen : M number unit :=
  _ <- modify (set_ws (Some OPEN)) ;;
  BinanceProvider_subscribeToTracked.

Definition BinanceProvider_trackSymbol (symbol : string) : M number unit :=
  tracked <- reads trackedSymbols ;;
  if bool_decide (symbol ∈ tracked) then ret tt
  else
    _ <- modify (set_trackedSymbols (tracked ++ [symbol])) ;;
    handle <- reads ws ;;
    match handle with
    | Some OPEN =>
        now <- reads (λ w, clock (env w)) ;;
        emit (EvWsSend (subscribe_message [toLowerCase symbol +:+ "@ticker"]
                          (JNum (number_of_Z now))))
    | Some _ => ret tt
    | None => BinanceProvider_initWebSocket
    end.

(** [this.memoryCache.set(key, v)] *)
Definition memoryCache_set (key : string) (v : value) : M number unit :=
  modify (λ w, set_memoryCache (<[key := v]> (memoryCache w)) w).

(** [this.memoryCache.get(key)] *)
Definition memoryCache_get (key : string) : M number value :=
  reads (λ w, default JUndefined (memoryCache w !! key)).

(** The quote built from one 24hrTicker message. *)
Definition ticker_quote (parsed : value) : value :=
  JObj [("symbol", own parsed "s");
        ("assetType", JStr "CRYPTO");
        ("price", JNum (parseFloat (own parsed "c")));
        ("changeAbs", JNum (parseFloat (own parsed "p")));
        ("changePct", JNum (parseFloat (own parsed "P")));
        ("ts", own parsed "E");
        ("source", JStr "BINANCE_WS");
        ("isStale", JBool false)].

(** The ['message'] handler. *)
Definition BinanceProvider_onMessage (data : string) : M number unit :=
  try_catch
    (parsed <- JSON_parse_M data ;;
     e <- get parsed "e" ;;
     if is_string e "24hrTicker" then
       let symbol := to_string (own parsed "s") in
       let payload := ticker_quote parsed in
       _ <- memoryCache_set ("quote:" +:+ symbol) payload ;;
       last <- memoryCache_get ("dbwrite:" +:+ symbol) ;;
       let lastDbWrite := if truthy last then last else JNum (number_of_Z 0) in
       now <- reads (λ w, clock (env w)) ;;
       if elapsed_more_than now lastDbWrite 5000 then
         _ <- CacheService_setCacheConfig ("quote:" +:+ symbol) (JSON_stringify payload) 60
                "BINANCE_WS" ;;
         memoryCache_set ("dbwrite:" +:+ symbol) (JNum (number_of_Z now))
       else ret tt
     else ret tt)
    (λ _, ret tt).

(** The quote built from the REST ticker; [data.symbol] is a TypeError when
    the body is [null]. *)
Definition rest_quote (data : value) : M number value :=
  sym <- get data "symbol" ;;
  ret (JObj [("symbol", sym);
             ("assetType", JStr "CRYPTO");
             ("price", JNum (parseFloat (own data "lastPrice")));
             ("changeAbs", JNum (parseFloat (own data "priceChange")));
             ("changePct", JNum (parseFloat (own data "priceChangePercent")));
             ("ts", own data "closeTime");
             ("source", JStr "BINANCE_REST");
             ("isStale", JBool false)]).

(** [stale.isStale = true] in strict mode: a TypeError on null and on a
    primitive.  A property put on an array is not represented. *)
Definition mark_stale (stale : value) : M number value :=
  match stale with
  | JObj fs => ret (JObj (set_field "isStale" (JBool true) fs))
  | JArr l => ret (JArr l)
  | _ => throw TypeError
  end.

(** The [try] block of [getQuote]: the REST call and the write-through. *)
Definition getQuote_rest (symbol : string) : M number value :=
  base <- reads (λ w, BINANCE_REST_BASE_URL (env w)) ;;
  res <- fetch (base +:+ "/api/v3/ticker/24hr?symbol=" +:+ symbol) ;;
  if negb (res_ok res)
  then throw (Error ("Binance REST HTTP " +:+ pretty (res_status res)))
  else
    data <- res_json res ;;
    payload <- rest_quote data ;;
    _ <- CacheService_setCacheConfig ("quote:" +:+ symbol) (JSON_stringify payload)
           60 "BINANCE_REST" ;;
    ret payload.

Definition BinanceProvider_getQuote (symbol : string) : M number value :=
  _ <- BinanceProvider_trackSymbol symbol ;;
  mem <- memoryCache_get ("quote:" +:+ symbol) ;;
  if truthy mem then ret mem
  else
    cached <- CacheService_getCacheConfig ("quote:" +:+ symbol) ;;
    match cache_hit cached with
    | Some c => JSON_parse_M (payloadJson c)
    | None =>
        try_catch
          (getQuote_rest symbol)
          (λ _,
             match cached with
             | Some c =>
                 stale <- JSON_parse_M (payloadJson c) ;;
                 mark_stale stale
             | None => throw (Error "No crypto quote available")
             end)
    end.

(** [data.map(k => f(k[i]))]: only an array has [map]; [k[i]] is a TypeError
    on a null or undefined row. *)
Definition kline_column (data : value) (i : nat) (f : value → number) : M number value :=
  match data with
  | JArr rows =>
      cells <- mapM (λ k : value,
                 cell <- or_throw TypeError (js_index k i) ;;
                 ret (JNum (f cell))) rows ;;
      ret (JArr cells)
  | _ => throw TypeError
  end.

(** The value of a parameter with a default: [undefined] takes the default. *)
Definition with_default (v dflt : value) : value :=
  match v with
  | JUndefined => dflt
  | _ => v
  end.

(** The [try] block of [getCandles]: the REST call, the normalization and
    the write-through. *)
Definition getCandles_rest (symbol : string) (interval limit : value) (cacheKey : string)
  : M number value :=
  base <- reads (λ w, BINANCE_REST_BASE_URL (env w)) ;;
  res <- fetch (base +:+ "/api/v3/klines?symbol=" +:+ symbol
                     +:+ "&interval=" +:+ to_string interval
                     +:+ "&limit=" +:+ to_string limit) ;;
  if negb (res_ok res) then throw (Error "Failed to fetch Binance klines")
  else
    data <- res_json res ;;
    t <- kline_column data 0 Math_floor_div_1000 ;;
    o <- kline_column data 1 parseFloat ;;
    h <- kline_column data 2 parseFloat ;;
    l <- kline_column data 3 parseFloat ;;
    c <- kline_column data 4 parseFloat ;;
    v <- kline_column data 5 parseFloat ;;
    let payload :=
      JObj [("s", JStr "ok");
            ("t", t); ("o", o); ("h", h); ("l", l); ("c", c); ("v", v);
            ("source", JStr "BINANCE_REST")] in
    _ <- CacheService_setCacheConfig cacheKey (JSON_stringify payload) 300
           "BINANCE_REST" ;;
    ret payload.

Definition BinanceProvider_getCandles (symbol : string) (interval limit_arg : value)
  : M number value :=
  let limit := with_default limit_arg (JNum (number_of_Z 180)) in
  let cacheKey := "candle:binance:" +:+ symbol +:+ ":" +:+ to_string interval
                  +:+ ":" +:+ to_string limit in
  cached <- CacheService_getCacheConfig cacheKey ;;
  match cache_hit cached with
  | Some c => JSON_parse_M (payloadJson c)
  | None =>
      try_catch
        (getCandles_rest symbol interval limit cacheKey)
        (λ _, ret (JObj [("s", JStr "error")]))
  end.
End BinanceProvider.

(** ** MarketData, the aggregation router (services/market-data.ts) *)

Section MarketData.
Context {number : Type} `{RT : Runtime number}.

Local Abbreviation value := (jsval number).



(** The own properties of the object literal [map] in [getCandles]. *)
Definition range_table : list (string * (string * Z)) :=
  [("1d", ("15m", 96));
   ("1w", ("1h", 168));
   ("1m", ("4h", 180));
   ("3m", ("1d", 90));
   ("6m", ("1d", 180));
   ("1y", ("1d", 365))].

(** The properties every object literal inherits from [Object.prototype];
    each is a function, or for [__proto__] the prototype object, hence
    truthy, and none has an [interval] or a [limit] property. *)
Definition Object_prototype_keys : list string :=
  ["constructor"; "hasOwnProperty"; "isPrototypeOf"; "propertyIsEnumerable";
   "toLocaleString"; "toString"; "valueOf"; "__proto__";
   "__defineGetter__"; "__defineSetter__"; "__lookupGetter__"; "__lookupSetter__"].

Fixpoint table_lookup (k : string) (tbl : list (string * (string * Z)))
  : option (string * Z) :=
  match tbl with
  | [] => None
  | (k', c) :: rest => if String.eqb k' k then Some c else table_lookup k rest
  end.

(** [config = map[rangeStr] || map['6m']], read as the pair
    [(config.interval, config.limit)].  The lookup [map[rangeStr]] finds an
    own property, else one inherited from [Object.prototype], else
    [undefined]. *)
Definition range_config (rangeStr : string) : value * value :=
  match table_lookup rangeStr range_table with
  | Some (interval, limit) => (JStr interval, JNum (number_of_Z limit))
  | None =>
      if bool_decide (rangeStr ∈ Object_prototype_keys)
      then (JUndefined, JUndefined)
      else (JStr "1d", JNum (number_of_Z 180))
  end.

(** The explicit window of the secondary provider: [(resolution, from)] for
    [to], in epoch seconds. *)
Definition finnhub_window (rangeStr : string) (isIntraday : bool) (to : Z) : string * Z :=
  if String.eqb rangeStr "1m" then ("D", to - 30 * 24 * 60 * 60)
  else if String.eqb rangeStr "1y" then ("D", to - 365 * 24 * 60 * 60)
  else if isIntraday then ("60", to - 7 * 24 * 60 * 60)
  else ("D", to - 180 * 24 * 60 * 60).

Definition MarketData_getCandles (symbol : string) (a : assetType) (rangeStr : string)
  : M number value :=
  match a with
  | CRYPTO =>
      let config := range_config rangeStr in
      BinanceProvider_getCandles symbol config.1 config.2
  | STOCK =>
      let isIntraday := bool_decide (rangeStr ∈ ["1d"; "1w"]) in
      try_catch
        (AlphaVantageProvider_getCandles symbol isIntraday)
        (λ _,
           now <- reads (λ w, clock (env w)) ;;
           let to := now `div` 1000 in
           let window := finnhub_window rangeStr isIntraday to in
           FinnhubService "getCandles" symbol
             [JStr window.1; JNum (number_of_Z window.2); JNum (number_of_Z to)])
  end.
End MarketData.

(** ** MarketData: profile, news and metrics (services/market-data.ts) *)

Section MarketDataDetails.
Context {number : Type} `{RT : Runtime number}.

Local Abbreviation value := (jsval number).


(** [new Date(ms).toISOString().split('T')[0]]: the calendar day of a time
    in milliseconds is the day of its whole second. *)
Definition isoDay_of_ms (ms : Z) : option string :=
  Date_isoDay_of_seconds (JNum (number_of_Z (ms `div` 1000))).

(** The two dates are computed before the [try]. *)
Definition MarketData_getNews (symbol : string) (a : assetType) : M number value :=
  match a with
  | CRYPTO => ret (JArr [])
  | STOCK =>
      now <- reads (λ w, clock (env w)) ;;
      toDate <- or_throw RangeError (isoDay_of_ms now) ;;
      fromDate <- or_throw RangeError (isoDay_of_ms (now - 7 * 24 * 60 * 60 * 1000)) ;;
      try_catch
        (FinnhubService "getNews" symbol [JStr fromDate; JStr toDate])
        (λ _, ret (JArr []))
  end.

Definition MarketData_getMetrics (symbol : string) (a : assetType) : M number value :=
  match a with
  | CRYPTO => ret JNull
  | STOCK =>
      try_catch
        (FinnhubService "getMetrics" symbol [])
        (λ _, ret JNull)
  end.
End MarketDataDetails.

(** ** PriceHistoryService, the history store (services/price-history.ts) *)

Section PriceHistoryService.
Context {number : Type} `{RT : Runtime number}.

Local Abbreviation value := (jsval number).
Local Abbreviation row := (PriceHistoryRow number).

(** The compound unique key [symbol_date]. *)
Definition same_key (symbol date : string) (r : row) : bool :=
  String.eqb (ph_symbol r) symbol && String.eqb (ph_date r) date.

(** The table after [upsert({ where: { symbol_date }, update, create })]:
    the row of the key is updated in place, or the new row is added. *)
Fixpoint upsert_row (symbol date : string) (update : row → row) (create : row)
  (table : list row) : list row :=
  match table with
  | [] => [create]
  | r :: rest =>
      if same_key symbol date r then update r :: rest
      else r :: upsert_row symbol date update create rest
  end.

(** [await prisma.priceHistory.upsert(...)]: a write the database refuses
    rejects and leaves the table as it was. *)
Definition prisma_priceHistory_upsert (symbol date : string) (update : row → row)
  (create : row) : M number unit :=
  _ <- emit (EvDbUpsert symbol date) ;;
  n <- reads db_writes ;;
  _ <- modify (set_db_writes (S n)) ;;
  refuses <- reads (λ w, db_refuses (env w) n) ;;
  if refuses then throw DbError
  else modify (λ w, set_priceHistory
                      (upsert_row symbol date update create (priceHistory w)) w).

Fixpoint insert_by_date (r : row) (sorted : list row) : list row :=
  match sorted with
  | [] => [r]
  | r' :: rest =>
      if String.leb (ph_date r) (ph_date r') then r :: r' :: rest
      else r' :: insert_by_date r rest
  end.

(** [orderBy: { date: 'asc' }] *)
Definition sort_by_date (rows : list row) : list row :=
  foldr insert_by_date [] rows.

(** [where: { symbol, date: { gte: cutoffDate } }] *)
Definition in_window (symbol cutoffDate : string) (r : row) : bool :=
  String.eqb (ph_symbol r) symbol && String.leb cutoffDate (ph_date r).

(** [await prisma.priceHistory.findMany({ where, orderBy })] *)
Definition prisma_priceHistory_findMany (symbol cutoffDate : string) : M number (list row) :=
  _ <- emit (EvDbFindMany symbol cutoffDate) ;;
  table <- reads priceHistory ;;
  ret (sort_by_date (List.filter (in_window symbol cutoffDate) table)).

(** The bar at index [i], as the object literals of the upsert read it:
    [candles.o[i]] and the like, a TypeError when an array is missing. *)
Record bar : Type := {
  bar_open : value;
  bar_high : value;
  bar_low : value;
  bar_close : value;
  bar_volume : value
}.

(** [v[i]] where [i] is a loop index, or NaN when it was computed from a
    missing length ([None]). *)
Definition js_at (v : value) (i : option nat) : M number value :=
  match i with
  | Some n => or_throw TypeError (js_index v n)
  | None => or_throw TypeError (js_get v "NaN")
  end.

Definition read_bar (candles : value) (i : option nat) : M number bar :=
  o <- js_at (own candles "o") i ;;
  h <- js_at (own candles "h") i ;;
  l <- js_at (own candles "l") i ;;
  c <- js_at (own candles "c") i ;;
  v <- js_at (own candles "v") i ;;
  ret {| bar_open := o; bar_high := h; bar_low := l; bar_close := c; bar_volume := v |}.

Definition created_row (symbol : string) (a : assetType) (date : string) (b : bar) : row :=
  {| ph_symbol := symbol; ph_date := date; ph_assetType := a;
     ph_open := bar_open b; ph_high := bar_high b; ph_low := bar_low b;
     ph_close := bar_close b; ph_volume := bar_volume b |}.

(** The [update] of [backfillSymbol]: the five values and the asset type. *)
Definition backfill_update (a : assetType) (b : bar) (r : row) : row :=
  {| ph_symbol := ph_symbol r; ph_date := ph_date r; ph_assetType := a;
     ph_open := bar_open b; ph_high := bar_high b; ph_low := bar_low b;
     ph_close := bar_close b; ph_volume := bar_volume b |}.

(** The [update] of [appendLatestCandle]: the five values only. *)
Definition append_update (b : bar) (r : row) : row :=
  {| ph_symbol := ph_symbol r; ph_date := ph_date r; ph_assetType := ph_assetType r;
     ph_open := bar_open b; ph_high := bar_high b; ph_low := bar_low b;
     ph_close := bar_close b; ph_volume := bar_volume b |}.

(** [!candles || candles.s !== 'ok' || !candles.c || candles.c.length === 0] *)
Definition no_data (candles : value) : bool :=
  negb (truthy candles)
  || negb (is_string (own candles "s") "ok")
  || negb (truthy (own candles "c"))
  || bool_decide (js_length (own candles "c") = Some 0%nat).

(** [new Date(candles.t[i] * 1000).toISOString().split('T')[0]] *)
Definition candle_date (candles : value) (i : option nat) : M number string :=
  ti <- js_at (own candles "t") i ;;
  or_throw RangeError (Date_isoDay_of_seconds ti).

(** One turn of the loop of [backfillSymbol]: the date is computed outside
    the [try], the upsert inside; it gives the new value of [inserted]. *)
Definition backfill_step (symbol : string) (a : assetType) (candles : value)
  (inserted : nat) (i : nat) : M number nat :=
  date <- candle_date candles (Some i) ;;
  try_catch
    (b <- read_bar candles (Some i) ;;
     _ <- prisma_priceHistory_upsert symbol date (backfill_update a b)
            (created_row symbol a date b) ;;
     ret (S inserted))
    (λ _, ret inserted).

(** [for (let i = 0; i < n; i++)] over the indices still to visit. *)
Fixpoint backfill_loop (symbol : string) (a : assetType) (candles : value)
  (indices : list nat) (inserted : nat) : M number nat :=
  match indices with
  | [] => ret inserted
  | i :: rest =>
      inserted' <- backfill_step symbol a candles inserted i ;;
      backfill_loop symbol a candles rest inserted'
  end.

(** The bound [candles.t.length] of the loop: a TypeError when [candles.t]
    is null or undefined, no turn when it has no length. *)
Definition loop_bound (candles : value) : M number nat :=
  match own candles "t" with
  | JUndefined | JNull => throw TypeError
  | t => ret (default 0%nat (js_length t))
  end.

Definition PriceHistoryService_backfillSymbol (symbol : string) (a : assetType)
  : M number nat :=
  candles <- MarketData_getCandles symbol a "2y" ;;
  if no_data candles then ret 0%nat
  else
    n <- loop_bound candles ;;
    backfill_loop symbol a candles (seq 0%nat n) 0%nat.

(** [candles.c.length - 1]: NaN ([None]) when there is no length; the
    length is not 0 where this is used. *)
Definition last_index (len : option nat) : option nat :=
  n ← len; Some (Nat.pred n).

Definition PriceHistoryService_appendLatestCandle (symbol : string) (a : assetType)
  : M number unit :=
  try_catch
    (candles <- MarketData_getCandles symbol a "5d" ;;
     if no_data candles then ret tt
     else
       let i := last_index (js_length (own candles "c")) in
       date <- candle_date candles i ;;
       b <- read_bar candles i ;;
       prisma_priceHistory_upsert symbol date (append_update b)
         (created_row symbol a date b))
    (λ _, ret tt).

(** [candles && candles.s === 'ok' && candles.c?.length > 0] *)
Definition live_usable (candles : value) : bool :=
  truthy candles
  && is_string (own candles "s") "ok"
  && match js_length (own candles "c") with
     | Some n => bool_decide (0 < n)%nat
     | None => false
     end.

(** The range token of the live fallback. *)
Definition fallback_range (days : Z) : string :=
  if bool_decide (365 ≤ days) then "2y"
  else if bool_decide (180 ≤ days) then "6m"
  else "3m".

(** [this.backfillSymbol(symbol, assetType).catch(() => { })]: the promise is
    started and not awaited; what it does takes place when the task is run
    ([run_task]). *)
Definition spawn (t : task) : M number unit :=
  modify (λ w, set_spawned (spawned w ++ [t]) w).

(** The series built from the stored rows. *)
Definition rows_to_candles (rows : list row) : value :=
  JObj [("c", JArr (ph_close <$> rows));
        ("h", JArr (ph_high <$> rows));
        ("l", JArr (ph_low <$> rows));
        ("o", JArr (ph_open <$> rows));
        ("v", JArr (ph_volume <$> rows));
        ("t", JArr ((λ r, JNum (Math_floor_div_1000
                                  (JNum (Date_getTime (JStr (ph_date r +:+ "T16:00:00Z"))))))
                    <$> rows));
        ("s", JStr "ok")].

(** [days] is an integer count of days. *)
Definition PriceHistoryService_getCandles (symbol : string) (a : assetType) (days : Z)
  : M number value :=
  now <- reads (λ w, clock (env w)) ;;
  cutoffDate <- or_throw RangeError (Date_isoDay_minus_days now days) ;;
  rows <- prisma_priceHistory_findMany symbol cutoffDate ;;
  if bool_decide (List.length rows < 20)%nat then
    live <- try_catch
              (candles <- MarketData_getCandles symbol a (fallback_range days) ;;
               if live_usable candles then
                 _ <- spawn (TaskBackfill symbol a) ;;
                 ret (Some candles)
               else ret None)
              (λ _, ret None) ;;
    match live with
    | Some candles => ret candles
    | None => ret JNull
    end
  else ret (rows_to_candles rows).

(** A started task, run to completion; its rejection is swallowed by the
    [catch] attached where it was started. *)
Definition run_task (t : task) : M number unit :=
  match t with
  | TaskBackfill symbol a =>
      try_catch (_ <- PriceHistoryService_backfillSymbol symbol a ;; ret tt) (λ _, ret tt)
  end.
End PriceHistoryService.

(** ** PriceHistoryService: what is stored (services/price-history.ts) *)

Section PriceHistoryCounts.
Context {number : Type} `{RT : Runtime number}.

(** [await prisma.priceHistory.count({ where: { symbol } })] *)
Definition PriceHistoryService_getCandleCount (symbol : string) : M number nat :=
  table <- reads priceHistory ;;
  ret (List.length (List.filter (λ r, String.eqb (ph_symbol r) symbol) table)).

(** [findMany({ distinct: ['symbol'], select: { symbol: true } })] followed
    by [rows.map(r => r.symbol)]: one entry for each symbol that has a row.
    The order of the entries is the database's. *)
Definition PriceHistoryService_getCachedSymbols : M number (list string) :=
  table <- reads priceHistory ;;
  ret (remove_dups (ph_symbol <$> table)).
End PriceHistoryCounts.

(** ** BinanceProvider: the close handler and its timer
    (services/providers/binance.ts)

    The ['close'] handler that [initWebSocket] installs, and the reconnect
    timer it sets, on top of the provider as modelled above. *)

Section BinanceReconnect.
Context {number : Type} `{RT : Runtime number}.

(** The provider with its timers.  [setTimeout] hands out a fresh handle; a
    timer is pending from then until it fires or is cleared. *)
Record feed : Type := {
  feed_world : world number;
  (* this.reconnectTimeout *)
  reconnectTimeout : option nat;
  (* timers set and neither fired nor cleared, oldest first *)
  pending : list nat;
  (* the handle the next setTimeout returns *)
  next_timer : nat
}.

(** [clearTimeout(t)] *)
Definition clearTimeout (t : nat) (timers : list nat) : list nat :=
  List.filter (λ x, negb (Nat.eqb x t)) timers.

(** The ['close'] handler: the handle is dropped, the timer of an earlier
    close is cleared and a reconnect is due in 5 s. *)
Definition BinanceProvider_onClose (f : feed) : feed :=
  let timers := match reconnectTimeout f with
                | Some t => clearTimeout t (pending f)
                | None => pending f
                end in
  {| feed_world := set_ws None (feed_world f);
     reconnectTimeout := Some (next_timer f);
     pending := timers ++ [next_timer f];
     next_timer := S (next_timer f) |}.

(** The timer [t] is due: its callback [() => this.initWebSocket()] runs if
    the timer is still pending. *)
Definition timer_fires (t : nat) (f : feed) : feed :=
  if bool_decide (t ∈ pending f) then
    {| feed_world := (BinanceProvider_initWebSocket (feed_world f)).2;
       reconnectTimeout := reconnectTimeout f;
       pending := clearTimeout t (pending f);
       next_timer := next_timer f |}
  else f.

(** What happens to the provider, one event-loop turn each. *)
Inductive feed_event : Type :=
  | SocketOpens
  | SocketCloses
  | SocketDelivers (data : string)
  | TimerDue (t : nat)
  | Tracks (symbol : string).

Definition in_world (m : M number unit) (f : feed) : feed :=
  {| feed_world := (m (feed_world f)).2;
     reconnectTimeout := reconnectTimeout f;
     pending := pending f;
     next_timer := next_timer f |}.

Definition feed_step (f : feed) (ev : feed_event) : feed :=
  match ev with
  | SocketOpens => in_world BinanceProvider_onOpen f
  | SocketCloses => BinanceProvider_onClose f
  | SocketDelivers data => in_world (BinanceProvider_onMessage data) f
  | TimerDue t => timer_fires t f
  | Tracks symbol => in_world (BinanceProvider_trackSymbol symbol) f
  end.

Definition feed_run (evs : list feed_event) (f : feed) : feed :=
  foldl feed_step f evs.
End BinanceReconnect.

(** ** The stored key hint (routes.ts, POST /api/settings/llm) *)

Module Settings.


End Settings.

(** ** The asset type repair (scripts/fix-crypto-assets.ts) *)

Module FixCryptoAssets.

(** A row of [prisma.asset]; [details] stands for the other columns. *)
Record asset (details : Type) : Type := {
  symbol : string;
  type : string;
  other : details
}.

Arguments symbol {details} _.
Arguments type {details} _.
Arguments other {details} _.

(** [s.endsWith(suffix)] *)
Fixpoint endsWith (s suffix : string) : bool :=
  String.eqb s suffix
  || match s with
     | EmptyString => false
     | String _ rest => endsWith rest suffix
     end.

Section Main.
Context {details : Type}.

(** [asset.symbol.endsWith('USDT') && asset.type !== 'CRYPTO'] *)
Definition mislabeled (a : asset details) : bool :=
  endsWith (symbol a) "USDT" && negb (String.eqb (type a) "CRYPTO").

(** [prisma.asset.update({ where: { symbol }, data: { type: 'CRYPTO' } })] *)
Definition update_type (sym : string) (table : list (asset details)) : list (asset details) :=
  (λ r, if String.eqb (symbol r) sym
        then {| symbol := symbol r; type := "CRYPTO"; other := other r |}
        else r) <$> table.

(** The loop over the rows read at the start; [refuses n] tells whether the
    database rejects the update after [n] accepted ones, which ends [main]
    with that rejection. *)
Fixpoint fix_loop (refuses : nat → bool) (assets : list (asset details)) (updated : nat)
  (table : list (asset details)) : outcome nat * list (asset details) :=
  match assets with
  | [] => (Return updated, table)
  | a :: rest =>
      if mislabeled a then
        if refuses updated then (Throw DbError, table)
        else fix_loop refuses rest (S updated) (update_type (symbol a) table)
      else fix_loop refuses rest updated table
  end.

(** [main]: the number of rows updated, and the table it leaves. *)
Definition main (refuses : nat → bool) (table : list (asset details))
  : outcome nat * list (asset details) :=
  fix_loop refuses table 0%nat table.

(** The row with its type set to CRYPTO. *)
Definition as_crypto (r : asset details) : asset details :=
  {| symbol := symbol r; type := "CRYPTO"; other := other r |}.

(** The row as the repair means to leave it. *)
Definition repaired (r : asset details) : asset details :=
  if endsWith (symbol r) "USDT" then as_crypto r else r.

(** The row once the symbols [syms] have been updated. *)
Definition retyped (syms : list string) (r : asset details) : asset details :=
  if bool_decide (symbol r ∈ syms) then as_crypto r else r.
End Main.

End FixCryptoAssets.

(** ** The superadmin account (services/admin.ts and the reset script) *)

Module SuperAdmin.

(** A row of [prisma.user], by its unique email; the columns the database
    fills in by default are left out. *)
Record user : Type := {
  passwordHash : string;
  role : string
}.

Inductive report : Type :=
  | Skipped       (* the variables are not set *)
  | Created
  | Elevated
  | PasswordReset
  | Untouched
  | Failed        (* a database error, logged *)
  | Exit1.        (* process.exit(1) *)

(** [!v] on an environment variable *)
Definition unset (v : option string) : bool :=
  match v with
  | None => true
  | Some s => String.eqb s ""
  end.

Section Scripts.
(** What [bcrypt.hash(password, 10)] resolves with in this run. *)
Variable bcrypt_hash : string → string.
(** The database call number [n] of the run rejects. *)
Variable refuses : nat → bool.

Definition bootstrapSuperAdmin (email password : option string) (users : gmap string user)
  : report * gmap string user :=
  if unset email || unset password then (Skipped, users)
  else
    let email := default "" email in
    let password := default "" password in
    if refuses 0%nat then (Failed, users)
    else
      match users !! email with
      | None =>
          if refuses 1%nat then (Failed, users)
          else (Created,
                <[email := {| passwordHash := bcrypt_hash password; role := "ADMIN" |}]> users)
      | Some existingAdmin =>
          if negb (String.eqb (role existingAdmin) "ADMIN") then
            if refuses 1%nat then (Failed, users)
            else (Elevated,
                  <[email := {| passwordHash := passwordHash existingAdmin;
                                role := "ADMIN" |}]> users)
          else (Untouched, users)
      end.

Definition resetAdmin (email password : option string) (users : gmap string user)
  : report * gmap string user :=
  if unset email || unset password then (Exit1, users)
  else
    let email := default "" email in
    let password := default "" password in
    let hash := bcrypt_hash password in
    if refuses 0%nat then (Exit1, users)
    else
      match users !! email with
      | Some _ =>
          if refuses 1%nat then (Exit1, users)
          else (PasswordReset, <[email := {| passwordHash := hash; role := "ADMIN" |}]> users)
      | None =>
          if refuses 1%nat then (Exit1, users)
          else (Created, <[email := {| passwordHash := hash; role := "ADMIN" |}]> users)
      end.
End Scripts.

End SuperAdmin.

(** ** The screener trigger (routes.ts, POST /api/admin/screener/run)

    Requests are served by one event loop: a handler runs until it awaits,
    other handlers and callbacks run meanwhile, and it resumes later.  The
    handler of this route awaits once, on [prisma.jobState.findUnique]. *)

Module JobCoordinator.

Inductive status : Type := IDLE | RUNNING | DONE | ERROR.

Inductive reply : Type :=
  | Conflict409
  | Queued (universe : string).

(** [z.enum(['SP500', 'NASDAQ100', 'CRYPTO'])] *)
Definition universes : list string := ["SP500"; "NASDAQ100"; "CRYPTO"].

Record server : Type := {
  (* prisma.jobState: status by id *)
  jobState : gmap string status;
  (* handlers suspended on findUnique, with the row the read gave them *)
  awaiting : list (nat * (string * option status));
  (* callbacks queued by setImmediate, oldest first *)
  immediates : list string;
  (* replies sent, oldest first *)
  replies : list (nat * reply);
  (* job bodies started, oldest first *)
  started : list string
}.

Definition boot : server :=
  {| jobState := ∅; awaiting := []; immediates := []; replies := []; started := [] |}.

(** The handler up to its [await]: the body is validated and the read
    [findUnique({ where: { id: universe } })] is answered from the table. *)
Definition handler_begin (request : nat) (universe : string) (s : server) : server :=
  if bool_decide (universe ∈ universes) then
    {| jobState := jobState s;
       awaiting := awaiting s ++ [(request, (universe, jobState s !! universe))];
       immediates := immediates s;
       replies := replies s;
       started := started s |}
  else s.

(** The handler after its [await]: the check on the row it was given, then
    either the 409 or [setImmediate] and the confirmation. *)
Definition handler_resume (request : nat) (s : server) : server :=
  match list_find (λ p, p.1 = request) (awaiting s) with
  | None => s
  | Some (i, (_, (universe, row))) =>
      let waiting := delete i (awaiting s) in
      match row with
      | Some RUNNING =>
          {| jobState := jobState s;
             awaiting := waiting;
             immediates := immediates s;
             replies := replies s ++ [(request, Conflict409)];
             started := started s |}
      | _ =>
          {| jobState := jobState s;
             awaiting := waiting;
             immediates := immediates s ++ [universe];
             replies := replies s ++ [(request, Queued universe)];
             started := started s |}
      end
  end.

(** Modelled from the spec: the start of [ScreenerService.runScreenerJob],
    whose source (services/screener.ts) is not part of this development: the
    job persists RUNNING for its id before its body executes. *)
Definition job_begin (universe : string) (s : server) : server :=
  {| jobState := <[universe := RUNNING]> (jobState s);
     awaiting := awaiting s;
     immediates := immediates s;
     replies := replies s;
     started := started s ++ [universe] |}.

(** The event loop runs the oldest [setImmediate] callback. *)
Definition run_immediate (s : server) : server :=
  match immediates s with
  | [] => s
  | universe :: rest =>
      job_begin universe
        {| jobState := jobState s;
           awaiting := awaiting s;
           immediates := rest;
           replies := replies s;
           started := started s |}
  end.

Inductive turn : Type :=
  | Arrive (request : nat) (universe : string)
  | Resume (request : nat)
  | Immediate.

Definition step (s : server) (t : turn) : server :=
  match t with
  | Arrive request universe => handler_begin request universe s
  | Resume request => handler_resume request s
  | Immediate => run_immediate s
  end.

(** The server after a schedule of turns. *)
Definition run (schedule : list turn) (s : server) : server :=
  foldl step s schedule.

Definition granted (r : nat * reply) : bool :=
  match r.2 with
  | Queued _ => true
  | Conflict409 => false
  end.

End JobCoordinator.

(** ** A small runtime, to run the embedding on concrete inputs

    Numbers are the integers and NaN; [JSON.parse] knows a handful of texts
    and [JSON.stringify] prints these and an opaque text for every other
    value; dates are proleptic Gregorian days in UTC with four-digit
    years. *)

Module Sample.

Inductive num : Type := NaN | Int (z : Z).

Definition digit_of (c : ascii) : option Z :=
  let n := nat_of_ascii c in
  if (48 <=? n)%nat && (n <=? 57)%nat then Some (Z.of_nat n - 48) else None.

(** The longest prefix of decimal digits, read as an integer. *)
Fixpoint digits (s : string) (acc : option Z) : option Z :=
  match s with
  | EmptyString => acc
  | String c rest =>
      match digit_of c with
      | Some d => digits rest (Some (default 0 acc * 10 + d))
      | None => acc
      end
  end.

Definition parse_int (s : string) : num :=
  match s with
  | String "-" rest => match digits rest None with Some z => Int (- z) | None => NaN end
  | _ => match digits s None with Some z => Int z | None => NaN end
  end.

Definition pad (width : nat) (z : Z) : string :=
  let text := pretty z in
  String.concat "" (replicate (width - String.length text) "0") +:+ text.

(** The civil date of a day count from 1970-01-01. *)
Definition iso_day (day : Z) : option string :=
  let z := day + 719468 in
  let era := z `div` 146097 in
  let doe := z `mod` 146097 in
  let yoe := (doe - doe `div` 1460 + doe `div` 36524 - doe `div` 146096) `div` 365 in
  let doy := doe - (365 * yoe + yoe `div` 4 - yoe `div` 100) in
  let mp := (5 * doy + 2) `div` 153 in
  let d := doy - (153 * mp + 2) `div` 5 + 1 in
  let m := if bool_decide (mp < 10) then mp + 3 else mp - 9 in
  let y := yoe + era * 400 + (if bool_decide (m ≤ 2) then 1 else 0) in
  if bool_decide (0 ≤ y ≤ 9999)
  then Some (pad 4 y +:+ "-" +:+ pad 2 m +:+ "-" +:+ pad 2 d)
  else None.

Fixpoint insert_string (s : string) (sorted : list string) : list string :=
  match sorted with
  | [] => [s]
  | s' :: rest => if String.leb s s' then s :: s' :: rest else s' :: insert_string s rest
  end.

#[export] Instance runtime : Runtime num := {|
  number_of_Z := Int;
  num_truthy n := match n with Int z => negb (z =? 0) | NaN => false end;
  num_to_string n := match n with Int z => pretty z | NaN => "NaN" end;
  parseFloat v := match v with
                  | JNum n => n
                  | JStr s => parse_int s
                  | _ => NaN
                  end;
  JSON_parse text :=
    if String.eqb text "null" then Some JNull
    else if String.eqb text "{}" then Some (JObj [])
    else if String.eqb text "[]" then Some (JArr [])
    else match parse_int text with
         | Int z => Some (JNum (Int z))
         | NaN => None
         end;
  JSON_stringify v := match v with
                      | JNull => "null"
                      | JNum (Int z) => pretty z
                      | JArr [] => "[]"
                      | JObj [] => "{}"
                      | _ => "{...}"
                      end;
  Math_floor_div_1000 v := match v with
                           | JNum (Int z) => Int (z `div` 1000)
                           | _ => NaN
                           end;
  Date_getTime v := match v with
                    | JNum (Int z) => Int z
                    | _ => NaN
                    end;
  Date_isoDay_of_seconds v := match v with
                              | JNum (Int z) => iso_day (z `div` 86400)
                              | _ => None
                              end;
  Date_isoDay_minus_days now days := iso_day (now `div` 86400000 - days);
  elapsed_more_than now v ms := match v with
                                | JNum (Int z) => bool_decide (ms < now - z)
                                | _ => false
                                end;
  sort_by_Date keys := foldr insert_string [] keys
|}.

(** A network in which every call fails, a Finnhub service that rejects, and
    a database that refuses nothing. *)
Definition offline : environment num :=
  {| clock := 1700000000000;
     ALPHAVANTAGE_API_KEY := "";
     ALPHAVANTAGE_BASE_URL := "https://www.alphavantage.co/query";
     BINANCE_REST_BASE_URL := "https://api.binance.com";
     BINANCE_WS_BASE_URL := "wss://stream.binance.com:9443";
     network := λ _, NetworkDown;
     finnhub := λ _ _, Throw FetchFailed;
     db_refuses := λ _, false |}.

Definition with_network (net : string → fetch_result num) (e : environment num)
  : environment num :=
  {| clock := clock e;
     ALPHAVANTAGE_API_KEY := ALPHAVANTAGE_API_KEY e;
     ALPHAVANTAGE_BASE_URL := ALPHAVANTAGE_BASE_URL e;
     BINANCE_REST_BASE_URL := BINANCE_REST_BASE_URL e;
     BINANCE_WS_BASE_URL := BINANCE_WS_BASE_URL e;
     network := net;
     finnhub := finnhub e;
     db_refuses := db_refuses e |}.

Definition with_finnhub (fh : string → list (jsval num) → outcome (jsval num))
  (e : environment num) : environment num :=
  {| clock := clock e;
     ALPHAVANTAGE_API_KEY := ALPHAVANTAGE_API_KEY e;
     ALPHAVANTAGE_BASE_URL := ALPHAVANTAGE_BASE_URL e;
     BINANCE_REST_BASE_URL := BINANCE_REST_BASE_URL e;
     BINANCE_WS_BASE_URL := BINANCE_WS_BASE_URL e;
     network := network e;
     finnhub := fh;
     db_refuses := db_refuses e |}.


(** A freshly started process in environment [e]. *)
Definition fresh (e : environment num) : world num :=
  {| env := e; cacheStore := ∅; priceHistory := []; db_writes := 0%nat;
     ws := None; trackedSymbols := []; memoryCache := ∅; spawned := [];
     events := [] |}.

(** A process with one row in the persisted cache. *)
Definition with_cached (key payload : string) (expiresAt : Z) (w : world num) : world num :=
  set_cacheStore
    (<[key := {| row_payloadJson := payload; row_expiresAt := expiresAt;
                 row_source := "SAMPLE" |}]> (cacheStore w)) w.



(** Two daily klines of the crypto venue: open time in milliseconds, then
    open, high, low, close and volume as strings. *)
Definition klines : jsval num :=
  JArr [JArr [JNum (Int 1699920000000); JStr "100"; JStr "110"; JStr "90"; JStr "105";
              JStr "1000"];
        JArr [JNum (Int 1700006400000); JStr "105"; JStr "120"; JStr "101"; JStr "118";
              JStr "1500"]].

Definition venue_up (url : string) : fetch_result num :=
  Response true 200 (Some klines).

(** A quote as the stream handler stores it. *)
Definition btc_hot : list (string * jsval num) :=
  [("symbol", JStr "BTCUSDT"); ("assetType", JStr "CRYPTO"); ("price", JNum (Int 40000));
   ("changeAbs", JNum (Int 240)); ("changePct", JNum (Int 1));
   ("ts", JNum (Int 1600000000000)); ("source", JStr "BINANCE_WS");
   ("isStale", JBool false)].

Definition with_hot (key : string) (v : jsval num) (w : world num) : world num :=
  set_memoryCache (<[key := v]> (memoryCache w)) w.

(** The venue as it answers in practice: HTTP 400 for an interval it does
    not know, the klines otherwise. *)
Definition venue_strict (url : string) : fetch_result num :=
  if includes "interval=undefined" url then Response false 400 (Some (JObj []))
  else Response true 200 (Some klines).

(** The worlds of the examples. *)
Definition world_av_cached : world num :=
  with_cached "quote:av:AAPL" "{}" 1700000900000 (fresh offline).



Definition world_venue_up : world num :=
  fresh (with_network venue_up offline).


Definition world_bad_candle_cache : world num :=
  with_cached "candle:binance:BTCUSDT:1d:180" "not json" 1700000300000 (fresh offline).

(** The same process [ms] milliseconds later. *)
Definition later (ms : Z) (w : world num) : world num :=
  {| env := {| clock := clock (env w) + ms;
               ALPHAVANTAGE_API_KEY := ALPHAVANTAGE_API_KEY (env w);
               ALPHAVANTAGE_BASE_URL := ALPHAVANTAGE_BASE_URL (env w);
               BINANCE_REST_BASE_URL := BINANCE_REST_BASE_URL (env w);
               BINANCE_WS_BASE_URL := BINANCE_WS_BASE_URL (env w);
               network := network (env w);
               finnhub := finnhub (env w);
               db_refuses := db_refuses (env w) |};
     cacheStore := cacheStore w; priceHistory := priceHistory w;
     db_writes := db_writes w; ws := ws w; trackedSymbols := trackedSymbols w;
     memoryCache := memoryCache w; spawned := spawned w; events := events w |}.


Definition world_hot_btc : world num :=
  with_hot "quote:BTCUSDT" (JObj btc_hot) (fresh offline).

(** The series the venue's klines normalize to. *)
Definition btc_series : jsval num :=
  JObj [("s", JStr "ok");
        ("t", JArr [JNum (Int 1699920000); JNum (Int 1700006400)]);
        ("o", JArr [JNum (Int 100); JNum (Int 105)]);
        ("h", JArr [JNum (Int 110); JNum (Int 120)]);
        ("l", JArr [JNum (Int 90); JNum (Int 101)]);
        ("c", JArr [JNum (Int 105); JNum (Int 118)]);
        ("v", JArr [JNum (Int 1000); JNum (Int 1500)]);
        ("source", JStr "BINANCE_REST")].

Definition second_bar : bar (number := num) :=
  {| bar_open := JNum (Int 105); bar_high := JNum (Int 120); bar_low := JNum (Int 101);
     bar_close := JNum (Int 118); bar_volume := JNum (Int 1500) |}.

(** A 24hrTicker message of the stream, and the runtime whose [JSON.parse]
    also knows the text that stands for it. *)
Definition btc_ticker : jsval num :=
  JObj [("e", JStr "24hrTicker"); ("E", JNum (Int 1700000000000));
        ("s", JStr "BTCUSDT"); ("c", JStr "40000"); ("p", JStr "240"); ("P", JStr "1")].

Definition btc_ticker_text : string := "24hrTicker BTCUSDT 40000 240 1".

Definition stream_runtime : Runtime num := {|
  number_of_Z := @number_of_Z num runtime;
  num_truthy := @num_truthy num runtime;
  num_to_string := @num_to_string num runtime;
  parseFloat := @parseFloat num runtime;
  JSON_parse text :=
    if String.eqb text btc_ticker_text then Some btc_ticker
    else @JSON_parse num runtime text;
  JSON_stringify := @JSON_stringify num runtime;
  Math_floor_div_1000 := @Math_floor_div_1000 num runtime;
  Date_getTime := @Date_getTime num runtime;
  Date_isoDay_of_seconds := @Date_isoDay_of_seconds num runtime;
  Date_isoDay_minus_days := @Date_isoDay_minus_days num runtime;
  elapsed_more_than := @elapsed_more_than num runtime;
  sort_by_Date := @sort_by_Date num runtime
|}.

(** A Finnhub service that answers candles, profile and metrics and rejects
    the rest. *)
Definition apple_profile : jsval num := JObj [("name", JStr "Apple Inc")].

Definition finnhub_details (operation : string) (args : list (jsval num))
  : outcome (jsval num) :=
  if String.eqb operation "getCandles" then Return btc_series
  else if String.eqb operation "getProfile" then Return apple_profile
  else if String.eqb operation "getMetrics" then Return (JObj [])
  else Throw FetchFailed.

Definition world_finnhub_details : world num :=
  fresh (with_finnhub finnhub_details offline).

(** A process that holds a fresh persisted quote for BTCUSDT. *)
Definition world_fresh_btc : world num :=
  with_cached "quote:BTCUSDT" "{}" 1700000060000 (fresh offline).

(** A store with one row of another symbol. *)
Definition eth_row : PriceHistoryRow num :=
  {| ph_symbol := "ETHUSDT"; ph_date := "2023-11-14"; ph_assetType := CRYPTO;
     ph_open := JNum (Int 2000); ph_high := JNum (Int 2100); ph_low := JNum (Int 1950);
     ph_close := JNum (Int 2050); ph_volume := JNum (Int 500) |}.

Definition world_with_eth : world num :=
  set_priceHistory [eth_row] world_venue_up.

(** The provider as the process starts: no socket, no timer. *)
Definition feed_boot : feed (number := num) :=
  {| feed_world := fresh offline; reconnectTimeout := None; pending := [];
     next_timer := 0%nat |}.

End Sample.

(** ** Vocabulary of the statements *)

Section Vocabulary.
Context {number : Type} `{RT : Runtime number}.

Local Abbreviation value := (jsval number).

(** The entry [CacheService.getCacheConfig(key)] resolves with in [w]. *)
Definition persisted (w : world number) (key : string) : option CacheEntry :=
  match (CacheService_getCacheConfig key w).1 with
  | Return cached => cached
  | Throw _ => None
  end.

(** The outcome of [JSON.parse] on a stored payload. *)
Definition parsed (text : string) : outcome value :=
  match JSON_parse text with
  | Some v => Return v
  | None => Throw SyntaxError
  end.

(** Calls that leave the process for a provider. *)
Definition outbound (ev : event) : bool :=
  match ev with
  | EvFetch _ | EvFinnhub _ _ | EvWsConnect _ | EvWsSend _ => true
  | _ => false
  end.

Definition is_fetch (ev : event) : bool :=
  match ev with
  | EvFetch _ => true
  | _ => false
  end.

(** Reads of the persisted cache and REST calls. *)
Definition cache_or_rest (ev : event) : bool :=
  match ev with
  | EvFetch _ | EvCacheGet _ => true
  | _ => false
  end.

(** The cached operations of the adapters. *)
Inductive adapter_op : Type :=
  | AV_getQuote (symbol : string)
  | AV_getCandles (symbol : string) (isIntraday : bool)
  | AV_getOverview (symbol : string)
  | Binance_getCandles (symbol : string) (interval limit : value).

Definition run_op (op : adapter_op) : M number value :=
  match op with
  | AV_getQuote symbol => AlphaVantageProvider_getQuote symbol
  | AV_getCandles symbol isIntraday => AlphaVantageProvider_getCandles symbol isIntraday
  | AV_getOverview symbol => AlphaVantageProvider_getOverview symbol
  | Binance_getCandles symbol interval limit =>
      BinanceProvider_getCandles symbol interval limit
  end.

(** The cache key of an operation. *)
Definition key_of (op : adapter_op) : string :=
  match op with
  | AV_getQuote symbol => "quote:av:" +:+ symbol
  | AV_getCandles symbol isIntraday =>
      "candle:av:" +:+ symbol +:+ ":" +:+ (if isIntraday then "intraday" else "daily")
  | AV_getOverview symbol => "overview:av:" +:+ symbol
  | Binance_getCandles symbol interval limit =>
      "candle:binance:" +:+ symbol +:+ ":" +:+ to_string interval +:+ ":"
      +:+ to_string (with_default limit (JNum (number_of_Z 180)))
  end.

(** [m] leaves the component [f] of the world as it was. *)
Definition keeps {A B} (f : world number → B) (m : M number A) : Prop :=
  ∀ w, f (m w).2 = f w.

(** The REST endpoint [BinanceProvider.getQuote] falls back to. *)
Definition rest_quote_url (w : world number) (symbol : string) : string :=
  BINANCE_REST_BASE_URL (env w) +:+ "/api/v3/ticker/24hr?symbol=" +:+ symbol.

(** The REST call of [BinanceProvider.getQuote] fails: the network is down,
    the status is not a success, the body is not JSON, or the body is
    [null], on which reading [data.symbol] throws. *)
Definition rest_quote_fails (answer : fetch_result number) : bool :=
  match answer with
  | NetworkDown => true
  | Response ok _ body =>
      negb ok
      || match body with
         | None => true
         | Some data => bool_decide (js_get data "symbol" = None)
         end
  end.

(** The REST endpoint of [BinanceProvider.getCandles]. *)
Definition klines_url (w : world number) (symbol : string) (interval limit : value) : string :=
  BINANCE_REST_BASE_URL (env w) +:+ "/api/v3/klines?symbol=" +:+ symbol
  +:+ "&interval=" +:+ to_string interval
  +:+ "&limit=" +:+ to_string (with_default limit (JNum (number_of_Z 180))).

(** A fetch, HTTP or parse failure of a REST call: the network is down, the
    status is not a success, or the body is not JSON. *)
Definition call_fails (answer : fetch_result number) : bool :=
  match answer with
  | NetworkDown => true
  | Response ok _ body => negb ok || bool_decide (body = None)
  end.

(** The value [getCandles] gives in place of an error. *)
Definition error_series : value := JObj [("s", JStr "error")].







(** A component of the world that cache writes and the event trace do not
    touch. *)
Definition beside_cache {B} (f : world number → B) : Prop :=
  (∀ l w, f (set_events l w) = f w) ∧ (∀ c w, f (set_cacheStore c w) = f w).


(** What [findMany] reads in [w]. *)
Definition stored_window (w : world number) (symbol cutoffDate : string)
  : list (PriceHistoryRow number) :=
  sort_by_date (List.filter (in_window symbol cutoffDate) (priceHistory w)).

(** The key of a stored row. *)
Definition row_key (r : PriceHistoryRow number) : string * string :=
  (ph_symbol r, ph_date r).




(** The two writers of the table, with the asset type they are called
    with. *)
Inductive writer : Type :=
  | ByBackfill (a : assetType)
  | ByAppend (a : assetType).

(** The table after one accepted upsert of bar [b] for [(symbol, date)]. *)
Definition write (by_ : writer) (symbol date : string) (b : bar)
  (table : list (PriceHistoryRow number)) : list (PriceHistoryRow number) :=
  match by_ with
  | ByBackfill a =>
      upsert_row symbol date (backfill_update a b) (created_row symbol a date b) table
  | ByAppend a =>
      upsert_row symbol date (append_update b) (created_row symbol a date b) table
  end.

(** The bar of a series at index [i], when all five arrays can be read. *)
Definition bar_at (candles : value) (i : nat) : option bar :=
  o ← js_index (own candles "o") i;
  h ← js_index (own candles "h") i;
  l ← js_index (own candles "l") i;
  c ← js_index (own candles "c") i;
  v ← js_index (own candles "v") i;
  Some {| bar_open := o; bar_high := h; bar_low := l; bar_close := c; bar_volume := v |}.



(** The table after a list of accepted backfill writes. *)
Definition write_all (a : assetType) (symbol : string) (writes : list (string * bar))
  (table : list (PriceHistoryRow number)) : list (PriceHistoryRow number) :=
  foldl (λ t w, write (ByBackfill a) symbol w.1 w.2 t) table writes.

(** The world once an upsert has been handed to the database. *)
Definition attempted (symbol date : string) (w : world number) : world number :=
  set_db_writes (S (db_writes w)) (set_events (events w ++ [EvDbUpsert symbol date]) w).

(** The ticker stream of a symbol. *)
Definition stream_of (symbol : string) : string := toLowerCase symbol +:+ "@ticker".

(** The time to live, in seconds, and the source tag under which an
    operation stores what it fetched. *)
Definition ttl_of (op : adapter_op) : Z :=
  match op with
  | AV_getQuote _ => 900
  | AV_getCandles _ isIntraday => if isIntraday then 1800 else 86400
  | AV_getOverview _ => 86400 * 7
  | Binance_getCandles _ _ _ => 300
  end.

Definition source_of (op : adapter_op) : string :=
  match op with
  | Binance_getCandles _ _ _ => "BINANCE_REST"
  | _ => "ALPHAVANTAGE"
  end.

(** The row an operation stores for the value [v] at time [now]. *)
Definition stored_by (op : adapter_op) (v : value) (now : Z) : CacheRow :=
  {| row_payloadJson := JSON_stringify v;
     row_expiresAt := now + ttl_of op * 1000;
     row_source := source_of op |}.

(** [m] writes what it resolves with through to the cache under the key of
    [op], writes nothing when it rejects, and leaves the environment alone. *)
Definition writes_through (op : adapter_op) (m : M number value) : Prop :=
  ∀ w, env (m w).2 = env w
       ∧ match (m w).1 with
         | Return v =>
             cacheStore (m w).2
             = <[key_of op := stored_by op v (clock (env w))]> (cacheStore w)
         | Throw _ => cacheStore (m w).2 = cacheStore w
         end.

(** The operation has an answer of its own: [BinanceProvider.getCandles]
    resolves with [{s: 'error'}] in place of one. *)
Definition answered (op : adapter_op) (v : value) : Prop :=
  match op with
  | Binance_getCandles _ _ _ => v ≠ error_series
  | _ => True
  end.

(** The operation ends without an answer: it rejects, or it is
    [BinanceProvider.getCandles] resolving with [{s: 'error'}]. *)
Definition gave_up (op : adapter_op) (o : outcome value) : Prop :=
  match o with
  | Throw _ => True
  | Return v =>
      match op with
      | Binance_getCandles _ _ _ => v = error_series
      | _ => False
      end
  end.

(** The number of rows stored for a symbol. *)
Definition count_in (table : list (PriceHistoryRow number)) (symbol : string) : nat :=
  List.length (List.filter (λ r, String.eqb (ph_symbol r) symbol) table).

(** The rows stored for a symbol, in table order. *)
Definition rows_of (symbol : string) (table : list (PriceHistoryRow number))
  : list (PriceHistoryRow number) :=
  List.filter (λ r, String.eqb (ph_symbol r) symbol) table.

(** Upserts handed to the database. *)
Definition is_upsert (ev : event) : bool :=
  match ev with
  | EvDbUpsert _ _ => true
  | _ => false
  end.

(** The timers are in order: at most one is pending, the one
    [reconnectTimeout] refers to, and one is pending whenever a symbol is
    tracked and there is no socket. *)
Definition settled (f : @feed number) : Prop :=
  (pending f = [] ∨ ∃ t, reconnectTimeout f = Some t ∧ pending f = [t])
  ∧ (ws (feed_world f) = None → trackedSymbols (feed_world f) ≠ [] → pending f ≠ []).

(** The arrays of a candle series. *)
Definition series_keys : list string := ["t"; "o"; "h"; "l"; "c"; "v"].

(** A series tagged ok whose six arrays all have [n] entries. *)
Definition rectangular (n : nat) (v : value) : Prop :=
  own v "s" = JStr "ok"
  ∧ ∀ k, k ∈ series_keys → ∃ cells, own v k = JArr cells ∧ List.length cells = n.

(** The operations that give a candle series. *)
Definition candle_op (op : adapter_op) : bool :=
  match op with
  | AV_getCandles _ _ | Binance_getCandles _ _ _ => true
  | _ => false
  end.
End Vocabulary.

(** * Properties *)

(** ** The monad *)

Section Properties.
Context {number : Type} `{RT : Runtime number}.

Local Abbreviation value := (jsval number).

Lemma bind_Return {A B} (m : M number A) (k : A → M number B) w a w' :
  m w = (Return a, w') → bind m k w = k a w'.
Proof. intros H. unfold bind. by rewrite H. Qed.

Lemma bind_Throw {A B} (m : M number A) (k : A → M number B) w e w' :
  m w = (Throw e, w') → bind m k w = (Throw e, w').
Proof. intros H. unfold bind. by rewrite H. Qed.

Lemma try_catch_Return {A} (m : M number A) h w a w' :
  m w = (Return a, w') → try_catch m h w = (Return a, w').
Proof. intros H. unfold try_catch. by rewrite H. Qed.

Lemma try_catch_Throw {A} (m : M number A) h w e w' :
  m w = (Throw e, w') → try_catch m h w = h e w'.
Proof. intros H. unfold try_catch. by rewrite H. Qed.


Lemma or_throw_run {A} e (o : option A) (w : world number) :
  or_throw e o w = (match o with Some a => Return a | None => Throw e end, w).
Proof. by destruct o. Qed.

Lemma getCacheConfig_run key (w : world number) :
  CacheService_getCacheConfig key w
  = (Return (row ← cacheStore w !! key;
             Some {| payloadJson := row_payloadJson row;
                     isStale := bool_decide (row_expiresAt row < clock (env w));
                     source := row_source row |}),
     set_events (events w ++ [EvCacheGet key]) w).
Proof. reflexivity. Qed.

(** ** Cache hits *)

Lemma getCacheConfig_persisted key (w : world number) :
  CacheService_getCacheConfig key w
  = (Return (persisted w key), set_events (events w ++ [EvCacheGet key]) w).
Proof. reflexivity. Qed.

Lemma cache_hit_fresh c : isStale c = false → cache_hit (Some c) = Some c.
Proof. intros H. unfold cache_hit. by rewrite H. Qed.

Lemma JSON_parse_M_run text (w : world number) :
  JSON_parse_M text w = (parsed text, w).
Proof. unfold JSON_parse_M, parsed. by destruct (JSON_parse text). Qed.


(** On a hit an adapter operation is the cache read followed by
    [JSON.parse]. *)
Lemma hit_run op (w : world number) c :
  persisted w (key_of op) = Some c →
  isStale c = false →
  run_op op w = (parsed (payloadJson c),
                 set_events (events w ++ [EvCacheGet (key_of op)]) w).
Proof.
  intros Hc Hfresh.
  destruct op; simpl;
    [ unfold AlphaVantageProvider_getQuote
    | unfold AlphaVantageProvider_getCandles
    | unfold AlphaVantageProvider_getOverview
    | unfold BinanceProvider_getCandles ];
    cbv zeta;
    (erewrite bind_Return by apply getCacheConfig_persisted);
    simpl in Hc; rewrite Hc, (cache_hit_fresh _ Hfresh);
    apply JSON_parse_M_run.
Qed.

(** C2.  For every adapter operation (AlphaVantage getQuote, getCandles,
    getOverview, Binance getCandles) and every world in which the cache
    holds an entry for the key of the operation that is not stale: the
    operation resolves with the parsed cached payload (the outcome of
    [JSON.parse] on it), the only thing it does is the cache read, and so no
    outbound call is made; nothing but [isStale] is looked at. *)
Theorem cache_hit_makes_no_call op (w : world number) c :
  persisted w (key_of op) = Some c →
  isStale c = false →
  (run_op op w).1 = parsed (payloadJson c)
  ∧ (∀ v, JSON_parse (payloadJson c) = Some v → (run_op op w).1 = Return v)
  ∧ events (run_op op w).2 = (events w ++ [EvCacheGet (key_of op)])%list
  ∧ List.filter outbound (events (run_op op w).2) = List.filter outbound (events w)
  ∧ cacheStore (run_op op w).2 = cacheStore w.
Proof.
  intros Hc Hfresh. rewrite (hit_run op w c Hc Hfresh). simpl.
  repeat split.
  - intros v Hv. unfold parsed. by rewrite Hv.
  - rewrite List.filter_app. simpl. by rewrite app_nil_r.
Qed.

(** ** What an operation leaves untouched *)

Lemma keeps_ret {A B} (f : world number → B) (a : A) : keeps f (ret a).
Proof. by intros w. Qed.

Lemma keeps_throw {A B} (f : world number → B) e : keeps f (@throw number A e).
Proof. by intros w. Qed.

Lemma keeps_reads {A B} (f : world number → B) (g : world number → A) : keeps f (reads g).
Proof. by intros w. Qed.

Lemma keeps_or_throw {A B} (f : world number → B) e (o : option A) : keeps f (or_throw e o).
Proof. intros w. by destruct o. Qed.

Lemma keeps_modify {B} (f : world number → B) g :
  (∀ w, f (g w) = f w) → keeps f (modify g).
Proof. intros H w. apply H. Qed.

Lemma keeps_bind {A C B} (f : world number → B) (m : M number A) (k : A → M number C) :
  keeps f m → (∀ a, keeps f (k a)) → keeps f (bind m k).
Proof.
  intros Hm Hk w. unfold bind. specialize (Hm w).
  destruct (m w) as [[a|e] w']; simpl in *; [| done].
  by rewrite Hk.
Qed.

Lemma keeps_try_catch {A B} (f : world number → B) (m : M number A) h :
  keeps f m → (∀ e, keeps f (h e)) → keeps f (try_catch m h).
Proof.
  intros Hm Hh w. unfold try_catch. specialize (Hm w).
  destruct (m w) as [[a|e] w']; simpl in *; [done |].
  by rewrite Hh.
Qed.

Lemma keeps_mapM {A C B} (f : world number → B) (g : A → M number C) xs :
  (∀ x, keeps f (g x)) → keeps f (mapM g xs).
Proof.
  intros Hg. induction xs as [| x xs IH]; simpl.
  - apply keeps_ret.
  - apply keeps_bind; [apply Hg |]. intros y.
    apply keeps_bind; [apply IH |]. intros ys. apply keeps_ret.
Qed.

(** Runs the monad operations that head the goal. *)
Ltac run_simpl :=
  repeat (progress (unfold bind, reads, modify, emit, ret, throw, try_catch, or_throw in *;
                    simpl in *)).

(** Splits a goal [keeps f m] along the structure of [m]. *)
Ltac keeps_step :=
  match goal with
  | |- keeps _ (bind _ _) => apply keeps_bind; [| intros ?]
  | |- keeps _ (try_catch _ _) => apply keeps_try_catch; [| intros ?]
  | |- keeps _ (mapM _ _) => apply keeps_mapM; intros ?
  | |- keeps _ (ret _) => apply keeps_ret
  | |- keeps _ (throw _) => apply keeps_throw
  | |- keeps _ (reads _) => apply keeps_reads
  | |- keeps _ (or_throw _ _) => apply keeps_or_throw
  | |- keeps _ (modify _) => apply keeps_modify; intros ?; reflexivity
  | |- keeps _ (emit _) => apply keeps_modify; intros ?; reflexivity
  | |- keeps _ (if ?b then _ else _) => destruct b
  | |- keeps _ (match ?x with _ => _ end) => destruct x
  | |- keeps _ _ => progress cbv zeta
  end.

Create HintDb keeps.

Ltac keeps_auto := repeat (keeps_step || assumption || (progress eauto with keeps)).

Lemma keeps_getCacheConfig {B} (f : world number → B) key :
  beside_cache f → keeps f (@CacheService_getCacheConfig number key).
Proof.
  intros [Hev _]. unfold CacheService_getCacheConfig.
  apply keeps_bind; [apply keeps_modify; intros ?; apply Hev |]. intros _. keeps_auto.
Qed.

Lemma keeps_setCacheConfig {B} (f : world number → B) key payload ttl src :
  beside_cache f → keeps f (@CacheService_setCacheConfig number key payload ttl src).
Proof.
  intros [Hev Hcache]. unfold CacheService_setCacheConfig.
  apply keeps_bind; [apply keeps_modify; intros ?; apply Hev |]. intros _.
  apply keeps_bind; [apply keeps_reads |]. intros now.
  apply keeps_modify. intros w. apply Hcache.
Qed.

Lemma keeps_fetch {B} (f : world number → B) url :
  beside_cache f → keeps f (@fetch number url).
Proof.
  intros [Hev _]. unfold fetch.
  apply keeps_bind; [apply keeps_modify; intros ?; apply Hev |]. intros _.
  apply keeps_bind; [apply keeps_reads |]. intros net. destruct (net url); keeps_auto.
Qed.

Lemma keeps_FinnhubService {B} (f : world number → B) operation symbol more :
  beside_cache f → keeps f (@FinnhubService number operation symbol more).
Proof.
  intros [Hev _]. unfold FinnhubService.
  apply keeps_bind; [apply keeps_modify; intros ?; apply Hev |]. intros _.
  apply keeps_bind; [apply keeps_reads |]. intros fh. destruct (fh _ _); keeps_auto.
Qed.

Hint Resolve keeps_getCacheConfig keeps_setCacheConfig keeps_fetch keeps_FinnhubService
  : keeps.

Lemma priceHistory_beside_cache : beside_cache (@priceHistory number).
Proof. by split. Qed.

Lemma db_writes_beside_cache : beside_cache (@db_writes number).
Proof. by split. Qed.

Lemma env_beside_cache : beside_cache (@env number).
Proof. by split. Qed.


Lemma keeps_AV_getCandles {B} (f : world number → B) symbol isIntraday :
  beside_cache f → keeps f (AlphaVantageProvider_getCandles symbol isIntraday).
Proof.
  intros Hf.
  unfold AlphaVantageProvider_getCandles, column, JSON_parse_M, res_json, limit_reached, get.
  keeps_auto.
Qed.

Lemma keeps_Binance_getCandles {B} (f : world number → B) symbol interval limit :
  beside_cache f → keeps f (BinanceProvider_getCandles symbol interval limit).
Proof.
  intros Hf.
  unfold BinanceProvider_getCandles, getCandles_rest, JSON_parse_M, res_json, kline_column.
  keeps_auto.
Qed.

Lemma keeps_MarketData_getCandles {B} (f : world number → B) symbol a rangeStr :
  beside_cache f → keeps f (MarketData_getCandles symbol a rangeStr).
Proof.
  intros Hf. unfold MarketData_getCandles. destruct a.
  - apply keeps_try_catch; [by apply keeps_AV_getCandles |]. intros _.
    apply keeps_bind; [apply keeps_reads |]. intros now. cbv zeta.
    by apply keeps_FinnhubService.
  - by apply keeps_Binance_getCandles.
Qed.

(** ** The router: quotes *)

Lemma FinnhubService_run operation symbol more (w : world number) :
  FinnhubService operation symbol more w
  = (finnhub (env w) operation (JStr symbol :: more),
     set_events (events w ++ [EvFinnhub operation symbol]) w).
Proof.
  unfold FinnhubService, bind, emit, modify, reads. simpl.
  by destruct (finnhub (env w) operation (JStr symbol :: more)).
Qed.



(** ** The router: crypto candles *)

(** The six entries of the table. *)
Lemma range_config_table :
  range_config "1d" = (JStr "15m", JNum (number_of_Z 96))
  ∧ range_config "1w" = (JStr "1h", JNum (number_of_Z 168))
  ∧ range_config "1m" = (JStr "4h", JNum (number_of_Z 180))
  ∧ range_config "3m" = (JStr "1d", JNum (number_of_Z 90))
  ∧ range_config "6m" = (JStr "1d", JNum (number_of_Z 180))
  ∧ range_config "1y" = (JStr "1d", JNum (number_of_Z 365)).
Proof. repeat split. Qed.

(** A token that is neither in the table nor the name of a property of
    [Object.prototype] takes the 6m mapping. *)
Lemma range_config_unknown rangeStr :
  table_lookup rangeStr range_table = None →
  rangeStr ∉ Object_prototype_keys →
  range_config rangeStr = range_config "6m".
Proof.
  intros Htable Hproto. unfold range_config at 1. rewrite Htable.
  by rewrite bool_decide_eq_false_2.
Qed.

Lemma getCandles_unknown_token symbol rangeStr (w : world number) :
  table_lookup rangeStr range_table = None →
  rangeStr ∉ Object_prototype_keys →
  MarketData_getCandles symbol CRYPTO rangeStr w = MarketData_getCandles symbol CRYPTO "6m" w.
Proof.
  intros Htable Hproto. unfold MarketData_getCandles.
  by rewrite (range_config_unknown _ Htable Hproto).
Qed.

(** C4, at the token "constructor".  The token is not in the table, yet
    [map['constructor']] is the inherited [Object] function, which is truthy:
    the default [map['6m']] is not taken, [config.interval] and
    [config.limit] are undefined, and the venue is asked for the key and
    the interval "undefined" where the 6m mapping asks for "1d". *)
Theorem inherited_token_misses_the_6m_mapping symbol (w : world number) :
  table_lookup "constructor" range_table = None
  ∧ range_config "constructor" = (JUndefined, JUndefined)
  ∧ range_config "6m" = (JStr "1d", JNum (number_of_Z 180))
  ∧ MarketData_getCandles symbol CRYPTO "constructor" w
    = BinanceProvider_getCandles symbol JUndefined JUndefined w
  ∧ MarketData_getCandles symbol CRYPTO "6m" w
    = BinanceProvider_getCandles symbol (JStr "1d") (JNum (number_of_Z 180)) w
  ∧ key_of (Binance_getCandles symbol JUndefined JUndefined)
    ≠ key_of (Binance_getCandles symbol (JStr "1d") (JNum (number_of_Z 180))).
Proof.
  repeat split.
  unfold key_of. simpl. intros Heq.
  apply (inj (String.app _)), (inj (String.app _)), (inj (String.app _)) in Heq.
  discriminate Heq.
Qed.

(** ** The crypto adapter: quotes *)

Lemma trackSymbol_resolves symbol (w : world number) :
  (BinanceProvider_trackSymbol symbol w).1 = Return tt.
Proof.
  unfold BinanceProvider_trackSymbol, BinanceProvider_initWebSocket. run_simpl.
  destruct (bool_decide (symbol ∈ trackedSymbols w)); [done |]. run_simpl.
  destruct (ws w) as [[] |] eqn:Hws; run_simpl; rewrite ?Hws; done.
Qed.

Lemma keeps_cacheStore_trackSymbol symbol :
  keeps cacheStore (@BinanceProvider_trackSymbol number _ symbol).
Proof. unfold BinanceProvider_trackSymbol, BinanceProvider_initWebSocket. keeps_auto. Qed.

Lemma keeps_env_trackSymbol symbol :
  keeps env (@BinanceProvider_trackSymbol number _ symbol).
Proof. unfold BinanceProvider_trackSymbol, BinanceProvider_initWebSocket. keeps_auto. Qed.

Lemma keeps_memoryCache_trackSymbol symbol :
  keeps memoryCache (@BinanceProvider_trackSymbol number _ symbol).
Proof. unfold BinanceProvider_trackSymbol, BinanceProvider_initWebSocket. keeps_auto. Qed.

(** Tracking a symbol talks to the streaming socket only. *)
Lemma trackSymbol_events symbol (w : world number) (p : event → bool) :
  (∀ url, p (EvWsConnect url) = false) →
  (∀ message, p (EvWsSend message) = false) →
  List.filter p (events (BinanceProvider_trackSymbol symbol w).2) = List.filter p (events w).
Proof.
  intros Hconnect Hsend.
  unfold BinanceProvider_trackSymbol, BinanceProvider_initWebSocket. run_simpl.
  destruct (bool_decide (symbol ∈ trackedSymbols w)); [done |]. run_simpl.
  destruct (ws w) as [[] |] eqn:Hws; run_simpl; rewrite ?Hws; run_simpl;
    rewrite ?List.filter_app; simpl; rewrite ?Hsend, ?Hconnect, ?app_nil_r; done.
Qed.

Lemma persisted_ext (w1 w2 : world number) key :
  cacheStore w1 = cacheStore w2 → env w1 = env w2 → persisted w1 key = persisted w2 key.
Proof. intros Hc He. unfold persisted. simpl. by rewrite Hc, He. Qed.

(** [getQuote] up to the test on the hot cache. *)
Lemma getQuote_after_tracking symbol (w : world number) :
  let w0 := (BinanceProvider_trackSymbol symbol w).2 in
  BinanceProvider_getQuote symbol w
  = let mem := default JUndefined (memoryCache w !! ("quote:" +:+ symbol)) in
    if truthy mem then (Return mem, w0)
    else
      match cache_hit (persisted w ("quote:" +:+ symbol)) with
      | Some c =>
          (parsed (payloadJson c),
           set_events (events w0 ++ [EvCacheGet ("quote:" +:+ symbol)]) w0)
      | None =>
          try_catch
            (getQuote_rest symbol)
            (λ _,
               match persisted w ("quote:" +:+ symbol) with
               | Some c => stale <- JSON_parse_M (payloadJson c) ;; mark_stale stale
               | None => throw (Error "No crypto quote available")
               end)
            (set_events (events w0 ++ [EvCacheGet ("quote:" +:+ symbol)]) w0)
      end.
Proof.
  intros w0. subst w0. unfold BinanceProvider_getQuote.
  pose proof (trackSymbol_resolves symbol w) as Hres.
  pose proof (keeps_cacheStore_trackSymbol symbol w) as Hcache.
  pose proof (keeps_env_trackSymbol symbol w) as Henv.
  pose proof (keeps_memoryCache_trackSymbol symbol w) as Hmem.
  destruct (BinanceProvider_trackSymbol symbol w) as [[[] | e] w0] eqn:Htrack;
    simpl in *; [| done].
  rewrite (bind_Return _ _ _ _ _ Htrack).
  unfold memoryCache_get. unfold bind at 1. unfold reads at 1. rewrite Hmem.
  destruct (truthy (default JUndefined (memoryCache w !! ("quote:" +:+ symbol))));
    [done |].
  rewrite (bind_Return _ _ _ _ _ (getCacheConfig_persisted _ w0)).
  rewrite (persisted_ext w0 w _ Hcache Henv).
  destruct (cache_hit (persisted w ("quote:" +:+ symbol))); [| done].
  apply JSON_parse_M_run.
Qed.

(** C10.  For every CRYPTO symbol whose hot cache holds a quote entry (an
    object, as the message handler stores it): [getQuote] resolves with that
    entry exactly as stored, whatever its age, its fields or the clock; the
    world it leaves is the one tracking the symbol alone leaves, so neither
    the persisted cache is read nor a REST call made. *)
Theorem hot_quote_served_as_stored symbol (w : world number) fields :
  memoryCache w !! ("quote:" +:+ symbol) = Some (JObj fields) →
  BinanceProvider_getQuote symbol w
  = (Return (JObj fields), (BinanceProvider_trackSymbol symbol w).2)
  ∧ List.filter cache_or_rest (events (BinanceProvider_getQuote symbol w).2)
    = List.filter cache_or_rest (events w)
  ∧ cacheStore (BinanceProvider_getQuote symbol w).2 = cacheStore w.
Proof.
  intros Hmem.
  assert (BinanceProvider_getQuote symbol w
          = (Return (JObj fields), (BinanceProvider_trackSymbol symbol w).2)) as Hrun.
  { rewrite getQuote_after_tracking. cbv zeta. by rewrite Hmem. }
  rewrite Hrun. simpl. repeat split.
  - by apply trackSymbol_events.
  - apply keeps_cacheStore_trackSymbol.
Qed.



(** The REST attempt, when the call fails: one call, and a rejection. *)
Lemma getQuote_rest_fails symbol (w : world number) :
  rest_quote_fails (network (env w) (rest_quote_url w symbol)) = true →
  ∃ e, getQuote_rest symbol w
       = (Throw e, set_events (events w ++ [EvFetch (rest_quote_url w symbol)]) w).
Proof.
  unfold rest_quote_fails, getQuote_rest, fetch, rest_quote_url, res_json, rest_quote, get.
  run_simpl.
  destruct (network (env w) _) as [| ok status body]; run_simpl; [by eexists |].
  destruct ok; run_simpl; [| by eexists].
  destruct body as [data |]; run_simpl; [| by eexists].
  intros Hnull%bool_decide_eq_true. rewrite Hnull. by eexists.
Qed.

(** The REST attempt, when the call succeeds: one call, the quote built
    from the answer, and the write-through. *)
Lemma getQuote_rest_succeeds symbol (w : world number) :
  rest_quote_fails (network (env w) (rest_quote_url w symbol)) = false →
  ∃ payload w',
    getQuote_rest symbol w = (Return payload, w')
    ∧ events w'
      = (events w ++ [EvFetch (rest_quote_url w symbol);
                      EvCacheSet ("quote:" +:+ symbol) 60 "BINANCE_REST"])%list.
Proof.
  unfold rest_quote_fails, getQuote_rest, fetch, rest_quote_url, res_json, rest_quote, get,
    CacheService_setCacheConfig.
  run_simpl.
  destruct (network (env w) _) as [| ok status body]; run_simpl; [done |].
  destruct ok; run_simpl; [| done].
  destruct body as [data |]; run_simpl; [| done].
  intros Hsym%bool_decide_eq_false.
  destruct (js_get data "symbol") as [sym |]; [| done]. run_simpl.
  do 2 eexists. split; [reflexivity |]. simpl. by rewrite <- app_assoc.
Qed.


(** ** The crypto adapter: candles *)

Lemma bind_Return_inv {A B} (m : M number A) (k : A → M number B) w b w' :
  bind m k w = (Return b, w') →
  ∃ a w1, m w = (Return a, w1) ∧ k a w1 = (Return b, w').
Proof.
  unfold bind. destruct (m w) as [[a | e] w1]; [| done]. intros H. by exists a, w1.
Qed.

(** A series the REST attempt resolves with is tagged ok. *)
Lemma getCandles_rest_ok symbol interval limit key (w : world number) v w' :
  getCandles_rest symbol interval limit key w = (Return v, w') → own v "s" = JStr "ok".
Proof.
  unfold getCandles_rest. intros H.
  apply bind_Return_inv in H as (base & w1 & _ & H).
  apply bind_Return_inv in H as (res & w2 & _ & H).
  destruct (negb (res_ok res)); [done |].
  apply bind_Return_inv in H as (data & w3 & _ & H).
  do 6 (apply bind_Return_inv in H as (? & ? & _ & H)).
  apply bind_Return_inv in H as (? & ? & _ & H).
  injection H as <- _. reflexivity.
Qed.

Lemma getCandles_rest_fails symbol interval limit key (w : world number) :
  call_fails (network (env w)
                (BINANCE_REST_BASE_URL (env w) +:+ "/api/v3/klines?symbol=" +:+ symbol
                 +:+ "&interval=" +:+ to_string interval
                 +:+ "&limit=" +:+ to_string limit)) = true →
  ∃ e w', getCandles_rest symbol interval limit key w = (Throw e, w').
Proof.
  unfold call_fails, getCandles_rest, fetch, res_json. run_simpl.
  destruct (network (env w) _) as [| ok status body]; run_simpl; [by do 2 eexists |].
  destruct ok; run_simpl; [| by do 2 eexists].
  destruct body as [data |]; run_simpl; [done | by do 2 eexists].
Qed.

(** [getCandles] after its cache read. *)
Lemma getCandles_after_cache_read symbol interval limit (w : world number) :
  let key := key_of (Binance_getCandles symbol interval limit) in
  let w1 := set_events (events w ++ [EvCacheGet key]) w in
  BinanceProvider_getCandles symbol interval limit w
  = match cache_hit (persisted w key) with
    | Some c => (parsed (payloadJson c), w1)
    | None =>
        try_catch
          (getCandles_rest symbol interval (with_default limit (JNum (number_of_Z 180))) key)
          (λ _, ret error_series) w1
    end.
Proof.
  intros key w1. unfold BinanceProvider_getCandles. cbv zeta.
  rewrite (bind_Return _ _ _ _ _ (getCacheConfig_persisted _ w)).
  fold (key_of (Binance_getCandles symbol interval limit)). fold key.
  destruct (cache_hit (persisted w key)); [apply JSON_parse_M_run | done].
Qed.

(** C9, as amended.  [getCandles] resolves, and does not reject, whenever
    the cache holds no fresh entry for its key or the fresh entry parses:
    without a fresh entry it resolves with a series tagged ok or with
    [{s: 'error'}], and with the latter on every fetch, HTTP or parse
    failure of the REST call; with a fresh entry that parses it resolves
    with the parsed payload.  The one rejection left is the SyntaxError of
    [JSON.parse] on a fresh entry that does not parse. *)
Theorem crypto_candles_reject_only_on_unparseable_cache symbol interval limit
  (w : world number) :
  let key := key_of (Binance_getCandles symbol interval limit) in
  let answer := network (env w) (klines_url w symbol interval limit) in
  let result := (BinanceProvider_getCandles symbol interval limit w).1 in
  (cache_hit (persisted w key) = None →
     (∃ v, result = Return v ∧ (v = error_series ∨ own v "s" = JStr "ok"))
     ∧ (call_fails answer = true → result = Return error_series))
  ∧ (∀ c v, cache_hit (persisted w key) = Some c →
            JSON_parse (payloadJson c) = Some v → result = Return v)
  ∧ (∀ e, result = Throw e →
          e = SyntaxError
          ∧ ∃ c, cache_hit (persisted w key) = Some c ∧ JSON_parse (payloadJson c) = None).
Proof.
  intros key answer result. subst result answer.
  rewrite getCandles_after_cache_read. cbv zeta. fold key.
  set (w1 := set_events (events w ++ [EvCacheGet key]) w).
  destruct (cache_hit (persisted w key)) as [c |] eqn:Hhit.
  - split; [done |]. unfold parsed. simpl. split.
    + intros c' v [= <-] Hv. by rewrite Hv.
    + intros e. destruct (JSON_parse (payloadJson c)) eqn:Hparse; [done |].
      intros [= <-]. split; [done |]. by exists c.
  - split; [| split; [done |]].
    + intros _. unfold try_catch.
      destruct (getCandles_rest symbol interval _ key w1) as [[v | e] w2] eqn:Hrest; simpl.
      * split.
        { exists v. split; [done |]. right. by eapply getCandles_rest_ok. }
        intros Hfail.
        destruct (getCandles_rest_fails symbol interval
                    (with_default limit (JNum (number_of_Z 180))) key w1) as (e & w' & He).
        { exact Hfail. }
        rewrite Hrest in He. done.
      * split; [| done]. exists error_series. split; [done | by left].
    + intros e. unfold try_catch.
      by destruct (getCandles_rest symbol interval _ key w1) as [[v | e0] w2].
Qed.

(** ** The shape of a quote *)

Lemma try_catch_rethrow_inv {A} (m : M number A) (w : world number) a w' :
  try_catch m (λ e, throw e) w = (Return a, w') → m w = (Return a, w').
Proof. unfold try_catch, throw. by destruct (m w) as [[a0 | e] w0]. Qed.





(** What the message handler leaves in the hot cache for a ticker. *)
Lemma onMessage_stores_ticker data (w : world number) message :
  JSON_parse data = Some message →
  is_string (own message "e") "24hrTicker" = true →
  memoryCache (BinanceProvider_onMessage data w).2
    !! ("quote:" +:+ to_string (own message "s"))
  = Some (ticker_quote message).
Proof.
  intros Hparse He.
  assert (js_get message "e" = Some (own message "e")) as Hget.
  { destruct message; try done; simpl in He; done. }
  unfold BinanceProvider_onMessage, JSON_parse_M, get, memoryCache_set, memoryCache_get,
    CacheService_setCacheConfig.
  run_simpl. rewrite Hparse. run_simpl. rewrite Hget. run_simpl. rewrite He. run_simpl.
  set (key := "quote:" +:+ to_string (own message "s")).
  set (mark := "dbwrite:" +:+ to_string (own message "s")).
  assert (mark ≠ key) as Hne by (subst key mark; simpl; discriminate).
  match goal with
  | |- context [elapsed_more_than ?now ?last ?ms] => destruct (elapsed_more_than now last ms)
  end; run_simpl.
  - rewrite lookup_insert_ne by done. apply lookup_insert_eq.
  - apply lookup_insert_eq.
Qed.


(** ** The history store: reading *)

Lemma insert_by_date_perm (r : PriceHistoryRow number) rows :
  insert_by_date r rows ≡ₚ r :: rows.
Proof.
  induction rows as [| r' rest IH]; simpl; [done |].
  destruct (String.leb (ph_date r) (ph_date r')); [done |].
  rewrite IH. apply Permutation_swap.
Qed.

Lemma sort_by_date_perm (rows : list (PriceHistoryRow number)) : sort_by_date rows ≡ₚ rows.
Proof.
  induction rows as [| r rest IH]; simpl; [done |].
  rewrite insert_by_date_perm. by rewrite IH.
Qed.







(** ** The history store: upserts *)

Lemma same_key_spec symbol date (r : PriceHistoryRow number) :
  same_key symbol date r = true ↔ row_key r = (symbol, date).
Proof.
  unfold same_key, row_key. rewrite andb_true_iff, !String.eqb_eq.
  split; [by intros [-> ->] | by intros [= -> ->]].
Qed.

Lemma same_key_false symbol date (r : PriceHistoryRow number) :
  same_key symbol date r = false ↔ row_key r ≠ (symbol, date).
Proof. rewrite <- same_key_spec. by destruct (same_key symbol date r). Qed.

Section Upsert.
Variables (symbol date : string).
Variables (update : PriceHistoryRow number → PriceHistoryRow number).
Variable (create : PriceHistoryRow number).
Hypothesis update_key : ∀ r, row_key (update r) = row_key r.
Hypothesis create_key : row_key create = (symbol, date).
Implicit Types table : list (PriceHistoryRow number).

Lemma upsert_row_keys table :
  row_key <$> upsert_row symbol date update create table
  = if bool_decide ((symbol, date) ∈ row_key <$> table)
    then row_key <$> table
    else (row_key <$> table) ++ [(symbol, date)].
Proof.
  induction table as [| r rest IH].
  - simpl. by rewrite create_key.
  - cbn [upsert_row]. destruct (same_key symbol date r) eqn:Hk; rewrite !fmap_cons.
    + apply same_key_spec in Hk. rewrite update_key.
      rewrite bool_decide_eq_true_2; [done |]. rewrite Hk. left.
    + apply same_key_false in Hk. rewrite IH.
      destruct (bool_decide ((symbol, date) ∈ row_key <$> rest)) eqn:Hin.
      * apply bool_decide_eq_true in Hin.
        rewrite bool_decide_eq_true_2; [done | by right].
      * apply bool_decide_eq_false in Hin.
        rewrite bool_decide_eq_false_2; [done |].
        intros [Heq | Hrest]%elem_of_cons; [by symmetry in Heq | done].
Qed.




End Upsert.








(** ** The history store: the writers *)

Lemma read_bar_run candles i (w : world number) :
  read_bar candles (Some i) w
  = (match bar_at candles i with Some b => Return b | None => Throw TypeError end, w).
Proof.
  unfold read_bar, bar_at, js_at. run_simpl.
  destruct (js_index (own candles "o") i); run_simpl; [| done].
  destruct (js_index (own candles "h") i); run_simpl; [| done].
  destruct (js_index (own candles "l") i); run_simpl; [| done].
  destruct (js_index (own candles "c") i); run_simpl; [| done].
  by destruct (js_index (own candles "v") i).
Qed.

Lemma candle_date_run candles i (w : world number) :
  candle_date candles (Some i) w
  = (match js_index (own candles "t") i with
     | None => Throw TypeError
     | Some ti => match Date_isoDay_of_seconds ti with
                  | Some date => Return date
                  | None => Throw RangeError
                  end
     end, w).
Proof.
  unfold candle_date, js_at. run_simpl.
  destruct (js_index (own candles "t") i) as [ti |]; run_simpl; [| done].
  by destruct (Date_isoDay_of_seconds ti).
Qed.

Lemma upsert_run symbol date update create (w : world number) :
  prisma_priceHistory_upsert symbol date update create w
  = if db_refuses (env w) (db_writes w)
    then (Throw DbError, attempted symbol date w)
    else (Return tt,
          set_priceHistory (upsert_row symbol date update create (priceHistory w))
            (attempted symbol date w)).
Proof.
  unfold prisma_priceHistory_upsert, attempted. run_simpl.
  by destruct (db_refuses (env w) (db_writes w)).
Qed.

(** One turn of the loop, by cases. *)
Lemma backfill_step_run symbol a candles inserted i (w : world number) :
  backfill_step symbol a candles inserted i w
  = match js_index (own candles "t") i with
    | None => (Throw TypeError, w)
    | Some ti =>
        match Date_isoDay_of_seconds ti with
        | None => (Throw RangeError, w)
        | Some date =>
            match bar_at candles i with
            | None => (Return inserted, w)
            | Some b =>
                if db_refuses (env w) (db_writes w)
                then (Return inserted, attempted symbol date w)
                else (Return (S inserted),
                      set_priceHistory (write (ByBackfill a) symbol date b (priceHistory w))
                        (attempted symbol date w))
            end
        end
    end.
Proof.
  unfold backfill_step. unfold bind at 1. rewrite candle_date_run.
  destruct (js_index (own candles "t") i) as [ti |]; [| done].
  destruct (Date_isoDay_of_seconds ti) as [date |]; [| done].
  unfold try_catch, bind. rewrite read_bar_run.
  destruct (bar_at candles i) as [b |]; [| done].
  rewrite upsert_run. by destruct (db_refuses (env w) (db_writes w)).
Qed.









(** ** The live feed: tracking and messages *)

Lemma trackSymbol_known symbol (w : world number) :
  symbol ∈ trackedSymbols w → BinanceProvider_trackSymbol symbol w = (Return tt, w).
Proof.
  intros Hin. unfold BinanceProvider_trackSymbol. run_simpl.
  by rewrite bool_decide_eq_true_2.
Qed.

Lemma trackSymbol_new symbol (w : world number) :
  symbol ∉ trackedSymbols w →
  trackedSymbols (BinanceProvider_trackSymbol symbol w).2 = trackedSymbols w ++ [symbol].
Proof.
  intros Hnew. unfold BinanceProvider_trackSymbol, BinanceProvider_initWebSocket. run_simpl.
  rewrite bool_decide_eq_false_2 by done. run_simpl.
  destruct (ws w) as [[] |] eqn:Hws; run_simpl; rewrite ?Hws; done.
Qed.

(** X1.  Tracking is additive and idempotent: the symbol is tracked
    afterwards, no tracked symbol is dropped, nothing else is added, the set
    stays free of duplicates, and tracking a symbol that is tracked already
    changes nothing at all. *)
Theorem tracking_is_additive symbol (w : world number) :
  let w' := (BinanceProvider_trackSymbol symbol w).2 in
  symbol ∈ trackedSymbols w'
  ∧ (∀ s, s ∈ trackedSymbols w' ↔ s = symbol ∨ s ∈ trackedSymbols w)
  ∧ (NoDup (trackedSymbols w) → NoDup (trackedSymbols w'))
  ∧ (symbol ∈ trackedSymbols w → BinanceProvider_trackSymbol symbol w = (Return tt, w))
  ∧ BinanceProvider_trackSymbol symbol w' = (Return tt, w').
Proof.
  intros w'. subst w'.
  destruct (decide (symbol ∈ trackedSymbols w)) as [Hin | Hnew].
  - rewrite (trackSymbol_known _ _ Hin). simpl.
    split; [done |]. split; [| split; [done | split; [done |]]].
    + intros s. split; [by right | by intros [-> | ?]].
    + by apply trackSymbol_known.
  - pose proof (trackSymbol_new _ _ Hnew) as Htracked.
    assert (symbol ∈ trackedSymbols (BinanceProvider_trackSymbol symbol w).2) as Hin.
    { rewrite Htracked. apply elem_of_app. right. left. }
    split; [done |]. split; [| split; [| split; [done |]]].
    + intros s. rewrite Htracked, elem_of_app, list_elem_of_singleton. tauto.
    + intros Hnodup. rewrite Htracked. apply NoDup_app. split; [done |].
      split; [| apply NoDup_singleton].
      intros s Hs ->%list_elem_of_singleton. done.
    + by apply trackSymbol_known.
Qed.

Lemma onOpen_run (w : world number) :
  BinanceProvider_onOpen w
  = (Return tt,
     match trackedSymbols w with
     | [] => set_ws (Some OPEN) w
     | _ :: _ =>
         set_events
           (events w ++ [EvWsSend (subscribe_message (stream_of <$> trackedSymbols w)
                                     (JNum (number_of_Z 1)))])
           (set_ws (Some OPEN) w)
     end).
Proof.
  unfold BinanceProvider_onOpen, BinanceProvider_subscribeToTracked. run_simpl.
  by destruct (trackedSymbols w).
Qed.


(** The message handler, by cases on what it is given. *)
Lemma onMessage_run data (w : world number) :
  BinanceProvider_onMessage data w
  = (Return tt,
     match JSON_parse data with
     | None => w
     | Some message =>
         match js_get message "e" with
         | None => w
         | Some e =>
             if is_string e "24hrTicker" then
               let symbol := to_string (own message "s") in
               let payload := ticker_quote message in
               let w1 := set_memoryCache (<[("quote:" +:+ symbol) := payload]> (memoryCache w)) w in
               let last := default JUndefined (memoryCache w1 !! ("dbwrite:" +:+ symbol)) in
               let lastDbWrite := if truthy last then last else JNum (number_of_Z 0) in
               if elapsed_more_than (clock (env w)) lastDbWrite 5000 then
                 set_memoryCache
                   (<[("dbwrite:" +:+ symbol) := JNum (number_of_Z (clock (env w)))]>
                      (<[("quote:" +:+ symbol) := payload]> (memoryCache w)))
                   (set_cacheStore
                      (<[("quote:" +:+ symbol) :=
                           {| row_payloadJson := JSON_stringify payload;
                              row_expiresAt := clock (env w) + 60 * 1000;
                              row_source := "BINANCE_WS" |}]> (cacheStore w))
                      (set_events
                         (events w ++ [EvCacheSet ("quote:" +:+ symbol) 60 "BINANCE_WS"])
                         w1))
               else w1
             else w
         end
     end).
Proof.
  unfold BinanceProvider_onMessage, JSON_parse_M, get, memoryCache_set, memoryCache_get,
    CacheService_setCacheConfig.
  run_simpl.
  destruct (JSON_parse data) as [message |]; run_simpl; [| done].
  destruct (js_get message "e") as [e |]; run_simpl; [| done].
  destruct (is_string e "24hrTicker"); run_simpl; [| done].
  match goal with
  | |- context [elapsed_more_than ?now ?last ?ms] => destruct (elapsed_more_than now last ms)
  end; done.
Qed.

(** X3.  The message handler never rejects and never calls out, whatever it
    is given; it leaves the tracked set, the socket and the price history as
    they were; a text that is not JSON, or a message that is not a 24hrTicker,
    changes nothing at all. *)
Theorem onMessage_is_contained data (w : world number) :
  let w' := (BinanceProvider_onMessage data w).2 in
  (BinanceProvider_onMessage data w).1 = Return tt
  ∧ List.filter outbound (events w') = List.filter outbound (events w)
  ∧ trackedSymbols w' = trackedSymbols w
  ∧ ws w' = ws w
  ∧ priceHistory w' = priceHistory w
  ∧ (JSON_parse data = None → w' = w)
  ∧ (∀ message, JSON_parse data = Some message →
                is_string (own message "e") "24hrTicker" = false → w' = w).
Proof.
  intros w'. subst w'. rewrite onMessage_run. cbv zeta. simpl.
  split; [done |].
  destruct (JSON_parse data) as [message |]; [| by repeat split].
  destruct (js_get message "e") as [e |] eqn:He.
  - assert (e = own message "e") as ->
      by (unfold js_get in He; destruct message; congruence).
    destruct (is_string (own message "e") "24hrTicker") eqn:Hticker.
    + match goal with
      | |- context [elapsed_more_than ?now ?last ?ms] =>
          destruct (elapsed_more_than now last ms)
      end; simpl; repeat split; try done.
      * rewrite List.filter_app. simpl. by rewrite app_nil_r.
      * intros message' [= <-]. by rewrite Hticker.
      * intros message' [= <-]. by rewrite Hticker.
    + by repeat split.
  - by repeat split.
Qed.

(** X4.  A ticker the stream delivers for a symbol is what [getQuote] gives
    for that symbol next: the quote built from the message, tagged
    BINANCE_WS, without a read of the persisted cache or a REST call. *)
Theorem ticker_is_served_next data (w : world number) message symbol :
  JSON_parse data = Some message →
  is_string (own message "e") "24hrTicker" = true →
  own message "s" = JStr symbol →
  let w' := (BinanceProvider_onMessage data w).2 in
  (BinanceProvider_getQuote symbol w').1 = Return (ticker_quote message)
  ∧ own (ticker_quote message) "source" = JStr "BINANCE_WS"
  ∧ own (ticker_quote message) "symbol" = JStr symbol
  ∧ List.filter cache_or_rest (events (BinanceProvider_getQuote symbol w').2)
    = List.filter cache_or_rest (events w').
Proof.
  intros Hparse Hticker Hs w'. subst w'.
  pose proof (onMessage_stores_ticker data w message Hparse Hticker) as Hhot.
  rewrite Hs in Hhot. simpl in Hhot.
  rewrite getQuote_after_tracking. cbv zeta. rewrite Hhot. simpl.
  split; [done |]. split; [done |]. split; [by rewrite Hs |].
  by apply trackSymbol_events.
Qed.

(** X5.  With nothing in the hot cache and a fresh persisted quote,
    [getQuote] resolves with the parsed payload and makes no REST call: the
    persisted cache is read once and that is all. *)
Theorem persisted_quote_is_served_without_rest symbol (w : world number) c :
  truthy (default JUndefined (memoryCache w !! ("quote:" +:+ symbol))) = false →
  persisted w ("quote:" +:+ symbol) = Some c →
  isStale c = false →
  (BinanceProvider_getQuote symbol w).1 = parsed (payloadJson c)
  ∧ List.filter is_fetch (events (BinanceProvider_getQuote symbol w).2)
    = List.filter is_fetch (events w)
  ∧ cacheStore (BinanceProvider_getQuote symbol w).2 = cacheStore w.
Proof.
  intros Hhot Hc Hfresh.
  rewrite getQuote_after_tracking. cbv zeta.
  rewrite Hhot, Hc, (cache_hit_fresh _ Hfresh). simpl.
  split; [done |]. split.
  - rewrite List.filter_app. simpl. rewrite app_nil_r. by apply trackSymbol_events.
  - apply keeps_cacheStore_trackSymbol.
Qed.

(** ** The write-through of the adapters *)

Lemma keeps_cacheStore_fetch url : keeps cacheStore (@fetch number url).
Proof. unfold fetch. keeps_auto. Qed.

Lemma keeps_env_fetch' url : keeps env (@fetch number url).
Proof. apply keeps_fetch, env_beside_cache. Qed.

Hint Resolve keeps_cacheStore_fetch keeps_env_fetch' : keeps.

Lemma wt_throw op e : writes_through op (throw e).
Proof. by intros w. Qed.

Lemma wt_bind {A} op (m : M number A) (k : A → M number value) :
  keeps cacheStore m → keeps env m → (∀ a, writes_through op (k a)) →
  writes_through op (bind m k).
Proof.
  intros Hcache Henv Hk w. unfold bind.
  specialize (Hcache w). specialize (Henv w).
  destruct (m w) as [[a | e] w1]; simpl in *; [| done].
  destruct (Hk a w1) as [Henv' Hstore]. rewrite Henv in Henv'. split; [done |].
  destruct (k a w1).1; by rewrite Hstore, ?Henv, ?Hcache.
Qed.

Lemma wt_final op (payload : value) :
  writes_through op
    (bind (CacheService_setCacheConfig (key_of op) (JSON_stringify payload) (ttl_of op)
             (source_of op))
       (λ _, ret payload)).
Proof. by intros w. Qed.

Lemma wt_rethrow op (m : M number value) :
  writes_through op m → writes_through op (try_catch m (λ e, throw e)).
Proof.
  intros Hm w. specialize (Hm w). unfold try_catch, throw.
  by destruct (m w) as [[v | e] w1].
Qed.

(** Splits a goal [writes_through op m] along the structure of [m]. *)
Ltac wt_step :=
  match goal with
  | |- writes_through _ (throw _) => apply wt_throw
  | |- writes_through _ (bind (CacheService_setCacheConfig _ _ _ _) _) => apply wt_final
  | |- writes_through _ (bind _ _) => apply wt_bind; [keeps_auto | keeps_auto | intros ?]
  | |- writes_through _ (if ?b then _ else _) => destruct b
  | |- writes_through _ (match ?x with _ => _ end) => destruct x
  | |- writes_through _ _ => progress cbv zeta
  end.

Lemma wt_AV_getQuote symbol :
  ∃ body, (∀ w, AlphaVantageProvider_getQuote symbol w
                = match cache_hit (persisted w ("quote:av:" +:+ symbol)) with
                  | Some c => (parsed (payloadJson c),
                               set_events (events w ++ [EvCacheGet ("quote:av:" +:+ symbol)]) w)
                  | None => try_catch body (λ e, throw e)
                              (set_events (events w ++ [EvCacheGet ("quote:av:" +:+ symbol)]) w)
                  end)
          ∧ writes_through (AV_getQuote symbol) body.
Proof.
  eexists. split.
  - intros w. unfold AlphaVantageProvider_getQuote. cbv zeta.
    rewrite (bind_Return _ _ _ _ _ (getCacheConfig_persisted _ w)).
    destruct (cache_hit (persisted w _)); [apply JSON_parse_M_run | reflexivity].
  - unfold res_json, limit_reached, get, replace_percent.
    repeat wt_step.
Qed.

Lemma wt_AV_getCandles symbol isIntraday :
  let key := key_of (AV_getCandles symbol isIntraday) in
  ∃ body, (∀ w, AlphaVantageProvider_getCandles symbol isIntraday w
                = match cache_hit (persisted w key) with
                  | Some c => (parsed (payloadJson c),
                               set_events (events w ++ [EvCacheGet key]) w)
                  | None => try_catch body (λ e, throw e)
                              (set_events (events w ++ [EvCacheGet key]) w)
                  end)
          ∧ writes_through (AV_getCandles symbol isIntraday) body.
Proof.
  intros key. eexists. split.
  - intros w. unfold AlphaVantageProvider_getCandles. cbv zeta.
    rewrite (bind_Return _ _ _ _ _ (getCacheConfig_persisted _ w)).
    fold (key_of (AV_getCandles symbol isIntraday)). fold key.
    destruct (cache_hit (persisted w key)); [apply JSON_parse_M_run | reflexivity].
  - unfold res_json, limit_reached, column, get.
    repeat wt_step.
Qed.

Lemma wt_AV_getOverview symbol :
  let key := key_of (AV_getOverview symbol) in
  ∃ body, (∀ w, AlphaVantageProvider_getOverview symbol w
                = match cache_hit (persisted w key) with
                  | Some c => (parsed (payloadJson c),
                               set_events (events w ++ [EvCacheGet key]) w)
                  | None => try_catch body (λ e, throw e)
                              (set_events (events w ++ [EvCacheGet key]) w)
                  end)
          ∧ writes_through (AV_getOverview symbol) body.
Proof.
  intros key. eexists. split.
  - intros w. unfold AlphaVantageProvider_getOverview. cbv zeta.
    rewrite (bind_Return _ _ _ _ _ (getCacheConfig_persisted _ w)).
    fold (key_of (AV_getOverview symbol)). fold key.
    destruct (cache_hit (persisted w key)); [apply JSON_parse_M_run | reflexivity].
  - unfold res_json, limit_reached, get.
    repeat wt_step.
Qed.

Lemma wt_getCandles_rest symbol interval limit :
  writes_through (Binance_getCandles symbol interval limit)
    (getCandles_rest symbol interval (with_default limit (JNum (number_of_Z 180)))
       (key_of (Binance_getCandles symbol interval limit))).
Proof.
  unfold getCandles_rest, res_json, kline_column.
  repeat wt_step.
Qed.

(** An operation by cases: a hit, or the guarded body that writes through. *)
Lemma run_op_cases op :
  ∃ body handler,
    (∀ w, run_op op w
          = match cache_hit (persisted w (key_of op)) with
            | Some c => (parsed (payloadJson c),
                         set_events (events w ++ [EvCacheGet (key_of op)]) w)
            | None => try_catch body handler
                        (set_events (events w ++ [EvCacheGet (key_of op)]) w)
            end)
    ∧ writes_through op body
    ∧ (∀ w v w', body w = (Return v, w') → answered op v)
    ∧ (∀ e w, handler e w = (Throw e, w)
       ∨ (handler e w = (Return error_series, w) ∧ ¬ answered op error_series)).
Proof.
  destruct op as [symbol | symbol isIntraday | symbol | symbol interval limit].
  - destruct (wt_AV_getQuote symbol) as (body & Hrun & Hwt).
    exists body, (λ e, throw e).
    split; [done |]. split; [done |]. split; [done |]. intros e w. by left.
  - destruct (wt_AV_getCandles symbol isIntraday) as (body & Hrun & Hwt).
    exists body, (λ e, throw e).
    split; [done |]. split; [done |]. split; [done |]. intros e w. by left.
  - destruct (wt_AV_getOverview symbol) as (body & Hrun & Hwt).
    exists body, (λ e, throw e).
    split; [done |]. split; [done |]. split; [done |]. intros e w. by left.
  - eexists _, (λ _, ret error_series). split; [| split; [| split]].
    + intros w. apply getCandles_after_cache_read.
    + apply wt_getCandles_rest.
    + intros w v w' Hv%getCandles_rest_ok. simpl. intros ->. done.
    + intros e w. right. split; [done |]. simpl. intros H. by apply H.
Qed.


(** What an operation that misses leaves in the cache. *)
Lemma run_op_miss op (w : world number) :
  cache_hit (persisted w (key_of op)) = None →
  env (run_op op w).2 = env w
  ∧ match (run_op op w).1 with
    | Return v =>
        (answered op v →
         cacheStore (run_op op w).2
         = <[key_of op := stored_by op v (clock (env w))]> (cacheStore w))
        ∧ (¬ answered op v → cacheStore (run_op op w).2 = cacheStore w)
    | Throw _ => cacheStore (run_op op w).2 = cacheStore w
    end.
Proof.
  intros Hmiss.
  destruct (run_op_cases op) as (body & handler & Hrun & Hwt & Hans & Hhandler).
  rewrite Hrun, Hmiss. unfold try_catch.
  specialize (Hwt (set_events (events w ++ [EvCacheGet (key_of op)]) w)).
  destruct (body _) as [[v | e] w2] eqn:Hbody; simpl in *.
  - destruct Hwt as [Henv Hstore]. split; [done |]. split; [done |].
    intros Hnot. destruct Hnot. by eapply Hans.
  - destruct Hwt as [Henv Hstore].
    destruct (Hhandler e w2) as [-> | [-> Hnot]]; simpl; [done |].
    split; [done |]. split; [by intros ? | done].
Qed.



(** X7.  A failure is never cached: when an adapter operation rejects, or
    [BinanceProvider.getCandles] resolves with [{s: 'error'}], the persisted
    cache is what it was before the call. *)
Theorem failures_are_not_cached op (w : world number) :
  gave_up op (run_op op w).1 →
  cacheStore (run_op op w).2 = cacheStore w.
Proof.
  destruct (cache_hit (persisted w (key_of op))) as [c |] eqn:Hhit.
  - destruct (run_op_cases op) as (body & handler & Hrun & _).
    by rewrite Hrun, Hhit.
  - destruct (run_op_miss op w Hhit) as [_ Hstore].
    destruct (run_op op w).1 as [v | e]; [| done].
    destruct Hstore as [_ Hstore]. intros Hgave. apply Hstore.
    destruct op; simpl in *; try done. by intros H.
Qed.

(** ** The crypto quote: what the REST call leaves in the cache *)

Lemma getQuote_rest_store symbol (w : world number) :
  env (getQuote_rest symbol w).2 = env w
  ∧ memoryCache (getQuote_rest symbol w).2 = memoryCache w
  ∧ match (getQuote_rest symbol w).1 with
    | Return v =>
        cacheStore (getQuote_rest symbol w).2
        = <[("quote:" +:+ symbol) :=
              {| row_payloadJson := JSON_stringify v;
                 row_expiresAt := clock (env w) + 60 * 1000;
                 row_source := "BINANCE_REST" |}]> (cacheStore w)
    | Throw _ => cacheStore (getQuote_rest symbol w).2 = cacheStore w
    end.
Proof.
  unfold getQuote_rest, fetch, res_json, rest_quote, get, CacheService_setCacheConfig.
  run_simpl.
  destruct (network (env w) _) as [| ok status body]; run_simpl; [done |].
  destruct ok; run_simpl; [| done].
  destruct body as [data |]; run_simpl; [| done].
  destruct (js_get data "symbol"); run_simpl; done.
Qed.

Lemma keeps_cacheStore_stale_copy (cached : option CacheEntry) :
  keeps cacheStore
    (match cached with
     | Some c => stale <- JSON_parse_M (payloadJson c) ;; mark_stale stale
     | None => @throw number value (Error "No crypto quote available")
     end).
Proof. unfold JSON_parse_M, mark_stale. keeps_auto. Qed.

(** X8.  With nothing in the hot cache and no fresh persisted quote,
    [getQuote] goes to the REST endpoint.  When that call fails the persisted
    cache is left as it was, whether a stale copy is served or the call
    rejects.  When it succeeds the quote is resolved and stored fresh under
    BINANCE_REST, and asking again at once is served from that entry with no
    further REST call. *)
Theorem rest_quote_is_stored_unless_the_call_fails symbol (w : world number) :
  truthy (default JUndefined (memoryCache w !! ("quote:" +:+ symbol))) = false →
  cache_hit (persisted w ("quote:" +:+ symbol)) = None →
  let w' := (BinanceProvider_getQuote symbol w).2 in
  if rest_quote_fails (network (env w) (rest_quote_url w symbol))
  then cacheStore w' = cacheStore w
  else ∃ v,
      (BinanceProvider_getQuote symbol w).1 = Return v
      ∧ persisted w' ("quote:" +:+ symbol)
        = Some {| payloadJson := JSON_stringify v; isStale := false;
                  source := "BINANCE_REST" |}
      ∧ (BinanceProvider_getQuote symbol w').1 = parsed (JSON_stringify v)
      ∧ List.filter is_fetch (events (BinanceProvider_getQuote symbol w').2)
        = List.filter is_fetch (events w').
Proof.
  intros Hhot Hmiss w'. subst w'.
  rewrite (getQuote_after_tracking symbol w). cbv zeta. rewrite Hhot, Hmiss.
  pose proof (keeps_cacheStore_trackSymbol symbol w) as Hcache0.
  pose proof (keeps_env_trackSymbol symbol w) as Henv0.
  pose proof (keeps_memoryCache_trackSymbol symbol w) as Hmem0.
  set (w0 := (BinanceProvider_trackSymbol symbol w).2) in *.
  set (w1 := set_events (events w0 ++ [EvCacheGet ("quote:" +:+ symbol)]) w0).
  assert (env w1 = env w) as Henv1 by done.
  assert (rest_quote_url w1 symbol = rest_quote_url w symbol) as Hurl
    by (unfold rest_quote_url; by rewrite Henv1).
  destruct (getQuote_rest_store symbol w1) as (Henv2 & Hmem2 & Hstore).
  destruct (rest_quote_fails (network (env w) (rest_quote_url w symbol))) eqn:Hrest.
  - destruct (getQuote_rest_fails symbol w1) as [e Hfail]; [by rewrite Henv1, Hurl |].
    rewrite Hfail in Hstore. simpl in Hstore.
    rewrite (try_catch_Throw _ _ _ _ _ Hfail).
    rewrite (keeps_cacheStore_stale_copy (persisted w ("quote:" +:+ symbol))).
    simpl. done.
  - destruct (getQuote_rest_succeeds symbol w1) as (v & w2 & Hok & _);
      [by rewrite Henv1, Hurl |].
    rewrite Hok in Henv2, Hmem2, Hstore. simpl in Henv2, Hmem2, Hstore.
    rewrite (try_catch_Return _ _ _ _ _ Hok). simpl.
    exists v. split; [done |].
    assert (persisted w2 ("quote:" +:+ symbol)
            = Some {| payloadJson := JSON_stringify v; isStale := false;
                      source := "BINANCE_REST" |}) as Hc.
    { unfold persisted. rewrite getCacheConfig_run. simpl.
      rewrite Hstore, lookup_insert_eq. simpl. rewrite Henv2.
      rewrite bool_decide_eq_false_2; [done | lia]. }
    split; [done |].
    rewrite (getQuote_after_tracking symbol w2). cbv zeta.
    rewrite Hmem2. change (memoryCache w1) with (memoryCache w0). rewrite Hmem0, Hhot.
    rewrite Hc. simpl. split; [done |].
    rewrite List.filter_app. simpl. rewrite app_nil_r. by apply trackSymbol_events.
Qed.

(** ** The router: candles, profile, news and metrics *)




(** What Finnhub's answer becomes where a rejection is swallowed. *)
Lemma guarded_FinnhubService_run operation symbol more (dflt : value) (w : world number) :
  try_catch (FinnhubService operation symbol more) (λ _, ret dflt) w
  = (Return match finnhub (env w) operation (JStr symbol :: more) with
            | Return v => v
            | Throw _ => dflt
            end,
     set_events (events w ++ [EvFinnhub operation symbol]) w).
Proof.
  unfold try_catch. rewrite FinnhubService_run.
  by destruct (finnhub (env w) operation (JStr symbol :: more)).
Qed.

(** X11.  News and metrics never reject.  For a crypto asset they are the
    empty list and null, and nothing is asked.  For a stock Finnhub is asked
    once, the news for the seven days that end today; its answer is passed on
    and its rejection becomes the empty list, or null for the metrics. *)
Theorem news_and_metrics_never_reject symbol a (w : world number) fromDate toDate :
  isoDay_of_ms (clock (env w)) = Some toDate →
  isoDay_of_ms (clock (env w) - 7 * 24 * 60 * 60 * 1000) = Some fromDate →
  MarketData_getNews symbol a w
  = match a with
    | CRYPTO => (Return (JArr []), w)
    | STOCK =>
        (Return match finnhub (env w) "getNews" [JStr symbol; JStr fromDate; JStr toDate] with
                | Return v => v
                | Throw _ => JArr []
                end,
         set_events (events w ++ [EvFinnhub "getNews" symbol]) w)
    end
  ∧ MarketData_getMetrics symbol a w
    = match a with
      | CRYPTO => (Return JNull, w)
      | STOCK =>
          (Return match finnhub (env w) "getMetrics" [JStr symbol] with
                  | Return v => v
                  | Throw _ => JNull
                  end,
           set_events (events w ++ [EvFinnhub "getMetrics" symbol]) w)
      end.
Proof.
  intros Hto Hfrom. destruct a; [| done]. split.
  - unfold MarketData_getNews, bind, reads. simpl.
    rewrite or_throw_run, Hto, or_throw_run, Hfrom.
    apply guarded_FinnhubService_run.
  - apply guarded_FinnhubService_run.
Qed.

(** ** The history store: repeated and foreign writes *)

Lemma same_key_refl symbol date a b :
  same_key symbol date (created_row (number := number) symbol a date b) = true.
Proof. unfold same_key. simpl. by rewrite !String.eqb_refl. Qed.

(** A second backfill write to a key replaces the first. *)
Lemma write_absorbs a symbol date b b' (table : list (PriceHistoryRow number)) :
  write (ByBackfill a) symbol date b (write (ByBackfill a) symbol date b' table)
  = write (ByBackfill a) symbol date b table.
Proof.
  simpl. induction table as [| r rest IH].
  - cbn [upsert_row]. by rewrite same_key_refl.
  - cbn [upsert_row]. destruct (same_key symbol date r) eqn:Hk.
    + cbn [upsert_row].
      assert (same_key symbol date (backfill_update a b' r) = true) as -> by exact Hk.
      done.
    + cbn [upsert_row]. rewrite Hk. by rewrite IH.
Qed.

(** Backfill writes to two dates commute once the first of them has a
    row. *)
Lemma write_commutes a symbol d1 b1 d b (table : list (PriceHistoryRow number)) :
  d1 ≠ d →
  (symbol, d1) ∈ row_key <$> table →
  write (ByBackfill a) symbol d1 b1 (write (ByBackfill a) symbol d b table)
  = write (ByBackfill a) symbol d b (write (ByBackfill a) symbol d1 b1 table).
Proof.
  intros Hne. simpl. induction table as [| r rest IH]; intros Hin.
  - by apply elem_of_nil in Hin.
  - rewrite fmap_cons in Hin. cbn [upsert_row].
    destruct (same_key symbol d r) eqn:Hd; destruct (same_key symbol d1 r) eqn:Hd1.
    + apply same_key_spec in Hd, Hd1. congruence.
    + cbn [upsert_row].
      assert (same_key symbol d1 (backfill_update a b r) = false) as -> by exact Hd1.
      assert (same_key symbol d r = true) as -> by exact Hd. done.
    + cbn [upsert_row]. rewrite Hd1.
      assert (same_key symbol d (backfill_update a b1 r) = false) as -> by exact Hd.
      done.
    + cbn [upsert_row]. rewrite Hd, Hd1. f_equal. apply IH.
      apply elem_of_cons in Hin as [Hhere | Hrest]; [| done].
      apply same_key_false in Hd1. by rewrite Hhere in Hd1.
Qed.

Lemma write_keys by_ symbol date b (table : list (PriceHistoryRow number)) :
  row_key <$> write by_ symbol date b table
  = if bool_decide ((symbol, date) ∈ row_key <$> table)
    then row_key <$> table
    else (row_key <$> table) ++ [(symbol, date)].
Proof. destruct by_; by apply upsert_row_keys. Qed.

Lemma write_present by_ symbol date b (table : list (PriceHistoryRow number)) k :
  k ∈ row_key <$> write by_ symbol date b table
  ↔ k = (symbol, date) ∨ k ∈ row_key <$> table.
Proof.
  rewrite write_keys.
  destruct (bool_decide ((symbol, date) ∈ row_key <$> table)) eqn:Hin.
  - apply bool_decide_eq_true in Hin. split; [by right | by intros [-> | ?]].
  - rewrite elem_of_app, list_elem_of_singleton. tauto.
Qed.

Lemma write_all_present a symbol writes (table : list (PriceHistoryRow number)) k :
  k ∈ row_key <$> write_all a symbol writes table
  ↔ k ∈ row_key <$> table ∨ ∃ date, date ∈ writes.*1 ∧ k = (symbol, date).
Proof.
  unfold write_all. revert table.
  induction writes as [| [d b] rest IH]; intros table.
  - simpl. split; [by left |]. intros [? | (date & Hin & _)]; [done |].
    by apply elem_of_nil in Hin.
  - cbn [foldl]. rewrite IH, write_present. rewrite fmap_cons. simpl. split.
    + intros [[-> | ?] | (date & Hin & ->)].
      * right. exists d. split; [left | done].
      * by left.
      * right. exists date. split; [by right | done].
    + intros [? | (date & Hin & ->)]; [by left; right |].
      apply elem_of_cons in Hin as [-> | Hin]; [by left; left |].
      right. by exists date.
Qed.

(** A write that comes first does not show once the dates written after it
    all have rows and the date is written again at the end. *)
Lemma write_all_overwritten a symbol d b b' writes (table : list (PriceHistoryRow number)) :
  (∀ date, date ∈ writes.*1 → (symbol, date) ∈ row_key <$> table) →
  write (ByBackfill a) symbol d b
    (write_all a symbol writes (write (ByBackfill a) symbol d b' table))
  = write (ByBackfill a) symbol d b (write_all a symbol writes table).
Proof.
  unfold write_all. revert table.
  induction writes as [| [d1 b1] rest IH]; intros table Hpresent.
  - cbn [foldl]. apply write_absorbs.
  - cbn [foldl]. cbn [fst snd].
    destruct (decide (d1 = d)) as [-> | Hne].
    + by rewrite write_absorbs.
    + rewrite write_commutes; [| done | apply Hpresent; rewrite fmap_cons; left].
      apply IH. intros date Hin. apply write_present. right.
      apply Hpresent. rewrite fmap_cons. by right.
Qed.

Lemma write_all_snoc a symbol writes d b (table : list (PriceHistoryRow number)) :
  write_all a symbol (writes ++ [(d, b)]) table
  = write (ByBackfill a) symbol d b (write_all a symbol writes table).
Proof. unfold write_all. by rewrite foldl_app. Qed.

(** X12.  A backfill can be repeated: the accepted writes of a backfill,
    applied again to the table they produced, leave that table exactly as it
    is, whatever the table was and whether or not a date occurs twice. *)
Theorem repeated_backfill_changes_nothing a symbol writes
  (table : list (PriceHistoryRow number)) :
  write_all a symbol writes (write_all a symbol writes table)
  = write_all a symbol writes table.
Proof.
  induction writes as [| [d b] writes IH] using rev_ind; [done |].
  rewrite !write_all_snoc.
  rewrite write_all_overwritten; [by rewrite IH |].
  intros date Hin. apply write_all_present. right. by exists date.
Qed.

Lemma rows_of_upsert symbol date update create symbol'
  (table : list (PriceHistoryRow number)) :
  (∀ r, ph_symbol (update r) = ph_symbol r) →
  ph_symbol create = symbol →
  symbol' ≠ symbol →
  rows_of symbol' (upsert_row symbol date update create table) = rows_of symbol' table.
Proof.
  intros Hupdate Hcreate Hne. unfold rows_of.
  induction table as [| r rest IH]; cbn [upsert_row].
  - simpl. rewrite Hcreate.
    by rewrite (proj2 (String.eqb_neq symbol symbol')).
  - destruct (same_key symbol date r) eqn:Hk.
    + simpl. rewrite Hupdate.
      apply same_key_spec in Hk. injection Hk as Hs _. rewrite Hs.
      by rewrite (proj2 (String.eqb_neq symbol symbol')).
    + simpl. by rewrite IH.
Qed.

Lemma rows_of_write by_ symbol date b symbol' (table : list (PriceHistoryRow number)) :
  symbol' ≠ symbol →
  rows_of symbol' (write by_ symbol date b table) = rows_of symbol' table.
Proof. intros Hne. destruct by_; by apply rows_of_upsert. Qed.

(** What every accepted write preserves, the two writers preserve. *)
Lemma backfill_loop_preserves (I : list (PriceHistoryRow number) → Prop) symbol a candles
  indices inserted (w : world number) :
  (∀ date b table, I table → I (write (ByBackfill a) symbol date b table)) →
  I (priceHistory w) →
  I (priceHistory (backfill_loop symbol a candles indices inserted w).2).
Proof.
  intros Hwrite. revert inserted w.
  induction indices as [| i rest IH]; intros inserted w HI; [done |].
  cbn [backfill_loop]. unfold bind. rewrite backfill_step_run.
  destruct (js_index (own candles "t") i) as [ti |]; [| done].
  destruct (Date_isoDay_of_seconds ti) as [date |]; [| done].
  destruct (bar_at candles i) as [b |]; [| by apply IH].
  destruct (db_refuses (env w) (db_writes w)); apply IH; [done |].
  by apply Hwrite.
Qed.

Lemma backfillSymbol_preserves (I : list (PriceHistoryRow number) → Prop) symbol a
  (w : world number) :
  (∀ date b table, I table → I (write (ByBackfill a) symbol date b table)) →
  I (priceHistory w) →
  I (priceHistory (PriceHistoryService_backfillSymbol symbol a w).2).
Proof.
  intros Hwrite HI. unfold PriceHistoryService_backfillSymbol. unfold bind at 1.
  pose proof (keeps_MarketData_getCandles priceHistory symbol a "2y"
                priceHistory_beside_cache w) as Hph.
  destruct (MarketData_getCandles symbol a "2y" w) as [[candles | e] wf]; simpl in Hph.
  - rewrite <- Hph in HI.
    destruct (no_data candles); [done |].
    unfold bind at 1. unfold loop_bound.
    destruct (own candles "t"); try done; by apply (backfill_loop_preserves I).
  - simpl. by rewrite Hph.
Qed.

Lemma keeps_candle_date {B} (f : world number → B) candles i :
  keeps f (candle_date (number := number) candles i).
Proof. unfold candle_date, js_at. keeps_auto. Qed.

Lemma keeps_read_bar {B} (f : world number → B) candles i :
  keeps f (read_bar (number := number) candles i).
Proof. unfold read_bar, js_at. keeps_auto. Qed.

Lemma appendLatestCandle_preserves (I : list (PriceHistoryRow number) → Prop) symbol a
  (w : world number) :
  (∀ date b table, I table → I (write (ByAppend a) symbol date b table)) →
  I (priceHistory w) →
  I (priceHistory (PriceHistoryService_appendLatestCandle symbol a w).2).
Proof.
  intros Hwrite HI. unfold PriceHistoryService_appendLatestCandle, try_catch.
  unfold bind at 1.
  pose proof (keeps_MarketData_getCandles priceHistory symbol a "5d"
                priceHistory_beside_cache w) as Hph.
  destruct (MarketData_getCandles symbol a "5d" w) as [[candles | e] wf]; simpl in Hph;
    rewrite <- Hph in HI; [| done].
  destruct (no_data candles); [done |]. cbv zeta.
  unfold bind at 1.
  pose proof (keeps_candle_date priceHistory candles
                (last_index (js_length (own candles "c"))) wf) as Hdate.
  destruct (candle_date candles _ wf) as [[date | e] w1]; simpl in Hdate;
    rewrite <- Hdate in HI; [| done].
  unfold bind at 1.
  pose proof (keeps_read_bar priceHistory candles
                (last_index (js_length (own candles "c"))) w1) as Hbar.
  destruct (read_bar candles _ w1) as [[b | e] w2]; simpl in Hbar;
    rewrite <- Hbar in HI; [| done].
  rewrite upsert_run.
  destruct (db_refuses (env w2) (db_writes w2)); simpl; [done |].
  by apply (Hwrite date b).
Qed.

(** X13.  The writers of the history store touch the rows of their own
    symbol only: after [backfillSymbol] or [appendLatestCandle] for one
    symbol, however it ends, the rows of every other symbol are what they
    were, in the same order. *)
Theorem writers_leave_other_symbols_alone symbol a symbol' (w : world number) :
  symbol' ≠ symbol →
  rows_of symbol' (priceHistory (PriceHistoryService_backfillSymbol symbol a w).2)
  = rows_of symbol' (priceHistory w)
  ∧ rows_of symbol' (priceHistory (PriceHistoryService_appendLatestCandle symbol a w).2)
    = rows_of symbol' (priceHistory w).
Proof.
  intros Hne. split.
  - apply (backfillSymbol_preserves
             (λ table, rows_of symbol' table = rows_of symbol' (priceHistory w)));
      [| done].
    intros date b table <-. by apply rows_of_write.
  - apply (appendLatestCandle_preserves
             (λ table, rows_of symbol' table = rows_of symbol' (priceHistory w)));
      [| done].
    intros date b table <-. by apply rows_of_write.
Qed.

Lemma guarded_unit_resolves (m : M number unit) (w : world number) :
  (try_catch m (λ _, ret tt) w).1 = Return tt.
Proof. unfold try_catch. by destruct (m w) as [[[] | e] w1]. Qed.

Lemma appendLatestCandle_cases symbol a (w : world number) :
  ∃ w', PriceHistoryService_appendLatestCandle symbol a w = (Return tt, w')
        ∧ (db_writes w' = db_writes w ∨ db_writes w' = S (db_writes w))
        ∧ (match (MarketData_getCandles symbol a "5d" w).1 with
           | Return candles => no_data candles = true
           | Throw _ => True
           end →
           db_writes w' = db_writes w ∧ priceHistory w' = priceHistory w).
Proof.
  unfold PriceHistoryService_appendLatestCandle, try_catch. unfold bind at 1.
  pose proof (keeps_MarketData_getCandles priceHistory symbol a "5d"
                priceHistory_beside_cache w) as Hph.
  pose proof (keeps_MarketData_getCandles db_writes symbol a "5d"
                db_writes_beside_cache w) as Hdb.
  destruct (MarketData_getCandles symbol a "5d" w) as [[candles | e] wf];
    simpl in Hph, Hdb |- *; [| exists wf; by auto].
  destruct (no_data candles) eqn:Hdata; [exists wf; by auto |].
  unfold bind at 1.
  pose proof (keeps_candle_date db_writes candles
                (last_index (js_length (own candles "c"))) wf) as Hdate.
  destruct (candle_date candles _ wf) as [[date | e] w1]; simpl in Hdate;
    [| exists w1; split; [done |]; split; [left; congruence | by intros [=]]].
  unfold bind at 1.
  pose proof (keeps_read_bar db_writes candles
                (last_index (js_length (own candles "c"))) w1) as Hbar.
  destruct (read_bar candles _ w1) as [[b | e] w2]; simpl in Hbar;
    [| exists w2; split; [done |]; split; [left; congruence | by intros [=]]].
  rewrite upsert_run.
  destruct (db_refuses (env w2) (db_writes w2)); eexists; (split; [reflexivity |]);
    (split; [right; simpl; congruence | by intros [=]]).
Qed.

(** X14.  [appendLatestCandle] never rejects, whatever the router, the
    series or the database do, and it hands at most one write to the
    database; when the router rejects or gives no data it hands none and the
    table is left as it was. *)
Theorem append_never_rejects symbol a (w : world number) :
  let w' := (PriceHistoryService_appendLatestCandle symbol a w).2 in
  (PriceHistoryService_appendLatestCandle symbol a w).1 = Return tt
  ∧ (db_writes w' = db_writes w ∨ db_writes w' = S (db_writes w))
  ∧ (match (MarketData_getCandles symbol a "5d" w).1 with
     | Return candles => no_data candles = true
     | Throw _ => True
     end →
     db_writes w' = db_writes w ∧ priceHistory w' = priceHistory w).
Proof.
  intros w'. subst w'.
  destruct (appendLatestCandle_cases symbol a w) as (w' & -> & Hcount & Hnone). done.
Qed.

(** X15.  A backfill without data writes nothing: when the router gives no
    usable series [backfillSymbol] resolves with 0, when the router rejects
    it rejects with the same error, and in both cases it does nothing beyond
    the router's call: no write is handed to the database and the table is
    left as it was. *)
Theorem backfill_without_data_writes_nothing symbol a (w : world number) :
  match (MarketData_getCandles symbol a "2y" w).1 with
  | Return candles => no_data candles = true
  | Throw _ => True
  end →
  let w' := (PriceHistoryService_backfillSymbol symbol a w).2 in
  (PriceHistoryService_backfillSymbol symbol a w).1
  = match (MarketData_getCandles symbol a "2y" w).1 with
    | Return _ => Return 0%nat
    | Throw e => Throw e
    end
  ∧ w' = (MarketData_getCandles symbol a "2y" w).2
  ∧ db_writes w' = db_writes w
  ∧ priceHistory w' = priceHistory w.
Proof.
  intros Hnone w'. subst w'.
  pose proof (keeps_MarketData_getCandles priceHistory symbol a "2y"
                priceHistory_beside_cache w) as Hph.
  pose proof (keeps_MarketData_getCandles db_writes symbol a "2y"
                db_writes_beside_cache w) as Hdb.
  assert (PriceHistoryService_backfillSymbol symbol a w
          = (match (MarketData_getCandles symbol a "2y" w).1 with
             | Return _ => Return 0%nat
             | Throw e => Throw e
             end, (MarketData_getCandles symbol a "2y" w).2)) as ->.
  { unfold PriceHistoryService_backfillSymbol. unfold bind at 1.
    destruct (MarketData_getCandles symbol a "2y" w) as [[candles | e] wf];
      simpl in Hnone |- *; [| done].
    by rewrite Hnone. }
  done.
Qed.

(** ** The history store: counts *)

Lemma count_in_upsert symbol date update create symbol'
  (table : list (PriceHistoryRow number)) :
  (∀ r, row_key (update r) = row_key r) →
  row_key create = (symbol, date) →
  count_in (upsert_row symbol date update create table) symbol'
  = (count_in table symbol'
     + if bool_decide (symbol' = symbol ∧ (symbol, date) ∉ row_key <$> table)
       then 1 else 0)%nat.
Proof.
  intros Hupdate Hcreate. unfold count_in.
  assert (ph_symbol create = symbol) as Hcs by (by injection Hcreate).
  induction table as [| r rest IH]; cbn [upsert_row].
  - simpl. rewrite Hcs.
    destruct (String.eqb_spec symbol symbol') as [-> | Hne].
    + rewrite bool_decide_eq_true_2; [done |]. split; [done | apply not_elem_of_nil].
    + rewrite bool_decide_eq_false_2; [done |]. by intros [-> _].
  - destruct (same_key symbol date r) eqn:Hk.
    + assert (ph_symbol (update r) = ph_symbol r) as Hus
        by (specialize (Hupdate r); by injection Hupdate).
      simpl. rewrite Hus.
      rewrite bool_decide_eq_false_2;
        [rewrite Nat.add_0_r; by destruct (String.eqb (ph_symbol r) symbol') |].
      intros [_ Hnot]. apply Hnot. apply same_key_spec in Hk.
      rewrite Hk. left.
    + apply same_key_false in Hk.
      assert (bool_decide (symbol' = symbol ∧ (symbol, date) ∉ row_key <$> (r :: rest))
              = bool_decide (symbol' = symbol ∧ (symbol, date) ∉ row_key <$> rest)) as ->.
      { apply bool_decide_ext. rewrite fmap_cons, not_elem_of_cons. split.
        - by intros (? & _ & ?).
        - intros [? ?]. split; [done |]. split; [| done]. intros Heq. by rewrite Heq in Hk. }
      cbn [List.filter].
      destruct (String.eqb (ph_symbol r) symbol'); cbn [List.length]; by rewrite IH.
Qed.

Lemma window_within_count symbol cutoffDate (table : list (PriceHistoryRow number)) :
  (List.length (List.filter (in_window symbol cutoffDate) table) ≤ count_in table symbol)%nat.
Proof.
  unfold count_in, in_window. induction table as [| r rest IH]; simpl; [done |].
  destruct (String.eqb (ph_symbol r) symbol); simpl; [| done].
  destruct (String.leb cutoffDate (ph_date r)); simpl; lia.
Qed.

Lemma leb_empty s : String.leb "" s = true.
Proof. by destruct s. Qed.

Lemma window_from_start symbol (table : list (PriceHistoryRow number)) :
  List.filter (in_window symbol "") table
  = List.filter (λ r, String.eqb (ph_symbol r) symbol) table.
Proof.
  apply List.filter_ext. intros r. unfold in_window.
  by rewrite leb_empty, andb_true_r.
Qed.

(** X16.  The two summaries of the store agree with each other and with
    what [getCandles] reads: the cached symbols are listed once each and are
    exactly the symbols with a count above 0; the count of a symbol is the
    number of its rows; the rows read for any cutoff date are at most that
    many, and all of them for the earliest cutoff.  Neither summary changes
    the store. *)
Theorem summaries_agree_with_the_store (w : world number) :
  ∃ symbols,
    PriceHistoryService_getCachedSymbols w = (Return symbols, w)
    ∧ NoDup symbols
    ∧ ∀ symbol,
        PriceHistoryService_getCandleCount symbol w
        = (Return (count_in (priceHistory w) symbol), w)
        ∧ (symbol ∈ symbols ↔ (0 < count_in (priceHistory w) symbol)%nat)
        ∧ (∀ cutoffDate,
             (List.length (stored_window w symbol cutoffDate)
              ≤ count_in (priceHistory w) symbol)%nat)
        ∧ List.length (stored_window w symbol "") = count_in (priceHistory w) symbol.
Proof.
  exists (remove_dups (ph_symbol <$> priceHistory w)).
  split; [done |]. split; [apply NoDup_remove_dups |].
  intros symbol. split; [done |]. split; [| split].
  - rewrite elem_of_remove_dups, list_elem_of_fmap. unfold count_in.
    induction (priceHistory w) as [| r rest IH]; simpl.
    + split; [intros (r & _ & Hin); by apply elem_of_nil in Hin | lia].
    + destruct (String.eqb_spec (ph_symbol r) symbol) as [Heq | Hne]; simpl.
      * split; [lia |]. intros _. exists r. split; [done | left].
      * rewrite <- IH. split.
        -- intros (r' & Hs & Hin). apply elem_of_cons in Hin as [-> | Hin]; [done |].
           by exists r'.
        -- intros (r' & Hs & Hin). exists r'. split; [done | by right].
  - intros cutoffDate. unfold stored_window.
    rewrite (Permutation_length (sort_by_date_perm _)). apply window_within_count.
  - unfold stored_window.
    rewrite (Permutation_length (sort_by_date_perm _)). by rewrite window_from_start.
Qed.

(** X17.  An accepted write raises the count of its symbol by one when the
    day is new for that symbol and leaves it when the day has a row; the
    count of every other symbol is left as it was. *)
Theorem accepted_write_counts_new_days by_ symbol date b symbol'
  (table : list (PriceHistoryRow number)) :
  count_in (write by_ symbol date b table) symbol'
  = (count_in table symbol'
     + if bool_decide (symbol' = symbol ∧ (symbol, date) ∉ row_key <$> table)
       then 1 else 0)%nat.
Proof. destruct by_; by apply count_in_upsert. Qed.

(** ** The live feed: closing and reconnecting *)

Lemma clearTimeout_only t : clearTimeout t [t] = [].
Proof. unfold clearTimeout. simpl. by rewrite Nat.eqb_refl. Qed.

Lemma initWebSocket_handle (w : world number) :
  ws (BinanceProvider_initWebSocket w).2 ≠ None
  ∧ trackedSymbols (BinanceProvider_initWebSocket w).2 = trackedSymbols w.
Proof.
  unfold BinanceProvider_initWebSocket. run_simpl.
  destruct (ws w) eqn:Hws; run_simpl; by rewrite ?Hws.
Qed.

(** What a handler that runs in the provider can do to the handle and to
    the tracked set. *)
Lemma handler_keeps_the_feed (ev : @feed_event) (w : world number) :
  let m := match ev with
           | SocketOpens => BinanceProvider_onOpen
           | SocketDelivers data => BinanceProvider_onMessage data
           | Tracks symbol => BinanceProvider_trackSymbol symbol
           | _ => ret tt
           end in
  (∀ s, s ∈ trackedSymbols w → s ∈ trackedSymbols (m w).2)
  ∧ (ws (m w).2 = None → ws w = None ∧ trackedSymbols (m w).2 = trackedSymbols w).
Proof.
  destruct ev as [| | data | t | symbol]; cbv zeta; try done.
  - rewrite onOpen_run. cbn [snd].
    destruct (trackedSymbols w) eqn:Htracked; simpl; rewrite ?Htracked; by split.
  - rewrite onMessage_run. cbn [snd].
    destruct (JSON_parse data) as [message |]; [| done].
    destruct (js_get message "e") as [e |]; [| done].
    destruct (is_string e "24hrTicker"); [| done]. cbv zeta.
    match goal with
    | |- context [elapsed_more_than ?now ?last ?ms] =>
        destruct (elapsed_more_than now last ms)
    end; by split.
  - destruct (decide (symbol ∈ trackedSymbols w)) as [Hin | Hnew].
    + by rewrite (trackSymbol_known _ _ Hin).
    + split.
      * intros s Hs. rewrite (trackSymbol_new _ _ Hnew). apply elem_of_app. by left.
      * unfold BinanceProvider_trackSymbol, BinanceProvider_initWebSocket. run_simpl.
        rewrite bool_decide_eq_false_2 by done. run_simpl.
        destruct (ws w) as [[] |] eqn:Hws; run_simpl; rewrite ?Hws; done.
Qed.

Lemma feed_step_settled (f : @feed number) ev :
  settled f →
  settled (feed_step f ev)
  ∧ ∀ s, s ∈ trackedSymbols (feed_world f) → s ∈ trackedSymbols (feed_world (feed_step f ev)).
Proof.
  intros [Hone Hdue].
  destruct ev as [| | data | t | symbol].
  - destruct (handler_keeps_the_feed SocketOpens (feed_world f)) as [Hsub Hws].
    split; [| exact Hsub]. split; [exact Hone |].
    simpl. intros Hnone Htracked. destruct (Hws Hnone) as [Hnone' Hsame].
    apply Hdue; [done |]. by rewrite <- Hsame.
  - split; [| done]. unfold feed_step, BinanceProvider_onClose. split; simpl.
    + right. exists (next_timer f). split; [done |].
      destruct Hone as [-> | (t & -> & ->)].
      * by destruct (reconnectTimeout f).
      * by rewrite clearTimeout_only.
    + intros _ _ H. by apply app_eq_nil in H as [_ ?].
  - destruct (handler_keeps_the_feed (SocketDelivers data) (feed_world f)) as [Hsub Hws].
    split; [| exact Hsub]. split; [exact Hone |].
    simpl. intros Hnone Htracked. destruct (Hws Hnone) as [Hnone' Hsame].
    apply Hdue; [done |]. by rewrite <- Hsame.
  - unfold feed_step, timer_fires.
    destruct (bool_decide (t ∈ pending f)) eqn:Hin; [| by split].
    apply bool_decide_eq_true in Hin.
    destruct (initWebSocket_handle (feed_world f)) as [Hhandle Hsame].
    split; [| simpl; intros s; by rewrite Hsame].
    split; simpl; [| done].
    left. destruct Hone as [Hnil | (t0 & _ & Ht0)].
    + rewrite Hnil in Hin. by apply elem_of_nil in Hin.
    + rewrite Ht0 in Hin |- *. apply list_elem_of_singleton in Hin as ->.
      apply clearTimeout_only.
  - destruct (handler_keeps_the_feed (Tracks symbol) (feed_world f)) as [Hsub Hws].
    split; [| exact Hsub]. split; [exact Hone |].
    simpl. intros Hnone Htracked. destruct (Hws Hnone) as [Hnone' Hsame].
    apply Hdue; [done |]. by rewrite <- Hsame.
Qed.

(** X18.  Closing and reconnecting keeps the feed in order.  Through every
    sequence of opens, closes, messages, timers and tracked symbols: at most
    one reconnect timer is pending, the one [reconnectTimeout] refers to;
    whenever a symbol is tracked and there is no socket, a reconnect is
    pending; and no tracked symbol is ever dropped. *)
Theorem reconnects_never_pile_up (evs : list feed_event) (f : @feed number) :
  settled f →
  settled (feed_run evs f)
  ∧ (List.length (pending (feed_run evs f)) ≤ 1)%nat
  ∧ ∀ s, s ∈ trackedSymbols (feed_world f) →
         s ∈ trackedSymbols (feed_world (feed_run evs f)).
Proof.
  intros Hsettled.
  assert (settled (feed_run evs f)
          ∧ ∀ s, s ∈ trackedSymbols (feed_world f) →
                 s ∈ trackedSymbols (feed_world (feed_run evs f))) as [Hend Hsub].
  { unfold feed_run. revert f Hsettled.
    induction evs as [| ev evs IH]; intros f Hsettled; [done |].
    cbn [foldl]. destruct (feed_step_settled f ev Hsettled) as [Hnext Hsub].
    destruct (IH _ Hnext) as [Hend Hsub']. split; [done |].
    intros s Hs. by apply Hsub', Hsub. }
  split; [done |]. split; [| done].
  destruct Hend as [[-> | (t & _ & ->)] _]; simpl; lia.
Qed.

(** ** The shape of a candle series *)

Lemma mapM_length {A B} (g : A → M number B) xs : ∀ (w : world number) ys w',
  mapM g xs w = (Return ys, w') → List.length ys = List.length xs.
Proof.
  induction xs as [| x xs IH]; intros w ys w' H.
  - by injection H as <- _.
  - cbn [mapM] in H.
    apply bind_Return_inv in H as (y & w1 & _ & H).
    apply bind_Return_inv in H as (ys' & w2 & Hrest & H).
    injection H as <- _. simpl. by rewrite (IH _ _ _ Hrest).
Qed.

Lemma kline_column_length data i f (w : world number) col w' :
  kline_column data i f w = (Return col, w') →
  ∃ rows cells, data = JArr rows ∧ col = JArr cells
                ∧ List.length cells = List.length rows.
Proof.
  unfold kline_column. destruct data as [| | | | | rows |]; try done. intros H.
  apply bind_Return_inv in H as (cells & w1 & Hcells & H).
  injection H as <- _. exists rows, cells. split; [done |]. split; [done |].
  by apply mapM_length in Hcells.
Qed.

Lemma column_length ts dates k1 k2 (w : world number) col w' :
  column ts dates k1 k2 w = (Return col, w') →
  ∃ cells, col = JArr cells ∧ List.length cells = List.length dates.
Proof.
  unfold column. intros H.
  apply bind_Return_inv in H as (cells & w1 & Hcells & H).
  injection H as <- _. exists cells. split; [done |].
  by apply mapM_length in Hcells.
Qed.

Lemma getCandles_rest_rectangular symbol interval limit key (w : world number) v w' :
  getCandles_rest symbol interval limit key w = (Return v, w') → ∃ n, rectangular n v.
Proof.
  unfold getCandles_rest. intros H.
  apply bind_Return_inv in H as (base & w1 & _ & H).
  apply bind_Return_inv in H as (res & w2 & _ & H).
  destruct (negb (res_ok res)); [done |].
  apply bind_Return_inv in H as (data & w3 & _ & H).
  apply bind_Return_inv in H as (t & ? & (rows & ct & -> & -> & Ht)%kline_column_length & H).
  apply bind_Return_inv in H as (o & ? & (? & co & [= <-] & -> & Ho)%kline_column_length & H).
  apply bind_Return_inv in H as (h & ? & (? & ch & [= <-] & -> & Hh)%kline_column_length & H).
  apply bind_Return_inv in H as (l & ? & (? & cl & [= <-] & -> & Hl)%kline_column_length & H).
  apply bind_Return_inv in H as (c & ? & (? & cc & [= <-] & -> & Hc)%kline_column_length & H).
  apply bind_Return_inv in H as (vol & ? & (? & cv & [= <-] & -> & Hv)%kline_column_length & H).
  apply bind_Return_inv in H as (? & ? & _ & H).
  injection H as <- _. exists (List.length rows). split; [done |].
  intros k Hk. unfold series_keys in Hk.
  repeat (apply elem_of_cons in Hk as [-> | Hk]; [by eexists |]).
  by apply elem_of_nil in Hk.
Qed.

Lemma AV_getCandles_rectangular symbol isIntraday (w : world number) v w' :
  cache_hit (persisted w (key_of (AV_getCandles symbol isIntraday))) = None →
  AlphaVantageProvider_getCandles symbol isIntraday w = (Return v, w') →
  ∃ n, rectangular n v.
Proof.
  intros Hmiss. unfold AlphaVantageProvider_getCandles. cbv zeta.
  rewrite (bind_Return _ _ _ _ _ (getCacheConfig_persisted _ w)).
  simpl in Hmiss. rewrite Hmiss.
  intros H%try_catch_rethrow_inv.
  do 5 (apply bind_Return_inv in H as (? & ? & _ & H)).
  match type of H with (if ?b then _ else _) _ = _ => destruct b; [done |] end.
  apply bind_Return_inv in H as (keys & ? & _ & H).
  destruct (List.find _ keys) as [timeSeriesKey |]; [| done].
  apply bind_Return_inv in H as (tsKeys & ? & _ & H).
  apply bind_Return_inv in H as (o & ? & (co & -> & Ho)%column_length & H).
  apply bind_Return_inv in H as (h & ? & (ch & -> & Hh)%column_length & H).
  apply bind_Return_inv in H as (l & ? & (cl & -> & Hl)%column_length & H).
  apply bind_Return_inv in H as (c & ? & (cc & -> & Hc)%column_length & H).
  apply bind_Return_inv in H as (vol & ? & (cv & -> & Hv)%column_length & H).
  apply bind_Return_inv in H as (? & ? & _ & H).
  injection H as <- _. exists (List.length (sort_by_Date tsKeys)). split; [done |].
  intros k Hk. unfold series_keys in Hk.
  apply elem_of_cons in Hk as [-> | Hk];
    [eexists; split; [reflexivity | by rewrite length_fmap] |].
  repeat (apply elem_of_cons in Hk as [-> | Hk]; [by eexists |]).
  by apply elem_of_nil in Hk.
Qed.

(** X19.  A series a candle adapter fetches is rectangular: when
    AlphaVantage or Binance [getCandles] resolves on a miss with an answer of
    its own, the series is tagged ok and its arrays t, o, h, l, c and v all
    have the same number of entries. *)
Theorem fetched_series_are_rectangular op (w : world number) v w' :
  candle_op op = true →
  cache_hit (persisted w (key_of op)) = None →
  run_op op w = (Return v, w') →
  answered op v →
  ∃ n, rectangular n v.
Proof.
  intros Hop Hmiss Hrun Hans.
  destruct op as [| symbol isIntraday | | symbol interval limit]; try done; simpl in Hrun.
  - by eapply AV_getCandles_rectangular.
  - rewrite getCandles_after_cache_read in Hrun. cbv zeta in Hrun. rewrite Hmiss in Hrun.
    unfold try_catch in Hrun.
    destruct (getCandles_rest _ _ _ _ _) as [[v0 | e] w1] eqn:Hrest.
    + injection Hrun as <- _. by eapply getCandles_rest_rectangular.
    + injection Hrun as <- _. by destruct Hans.
Qed.

Lemma rectangular_index n (v : value) k i :
  rectangular n v → k ∈ series_keys → is_Some (js_index (own v k) i).
Proof.
  intros [_ Hrect] Hk. destruct (Hrect k Hk) as (cells & -> & _). by eexists.
Qed.

(** X20.  A rectangular series is what the history store expects, and the
    series the store builds from its rows is one.  On a rectangular series
    of [n] bars the loop of the backfill runs [n] turns and every bar can be
    read; the series counts as no data exactly when it has no bar, and as
    usable for the live fallback exactly when it has one.  The series built
    from stored rows is rectangular, with one bar for each row. *)
Theorem rectangular_series_fit_the_store n (v : value) :
  rectangular n v →
  (∀ w : world number, loop_bound v w = (Return n, w))
  ∧ (∀ i, is_Some (bar_at v i))
  ∧ no_data v = bool_decide (n = 0%nat)
  ∧ live_usable v = negb (no_data v)
  ∧ ∀ rows : list (PriceHistoryRow number),
      rectangular (List.length rows) (rows_to_candles rows).
Proof.
  intros Hrect.
  assert (∀ k i, k ∈ series_keys → is_Some (js_index (own v k) i)) as Hidx
    by (intros k i Hk; by eapply rectangular_index).
  destruct Hrect as [Hok Hrect].
  destruct (Hrect "t") as (ct & Ht & Hnt); [by (apply list_elem_of_In; simpl; tauto) |].
  destruct (Hrect "c") as (cc & Hc & Hnc); [by (apply list_elem_of_In; simpl; tauto) |].
  assert (truthy v = true) as Htruthy.
  { destruct v as [| | b | x | s | l | fs]; simpl in Hc; try done.
    by destruct (index_of_key "c" (String.length s) ≫= _). }
  split; [| split; [| split; [| split]]].
  - intros w. unfold loop_bound. rewrite Ht. simpl. by rewrite Hnt.
  - intros i. unfold bar_at.
    destruct (Hidx "o" i) as [o ->]; [by (apply list_elem_of_In; simpl; tauto) |].
    destruct (Hidx "h" i) as [h ->]; [by (apply list_elem_of_In; simpl; tauto) |].
    destruct (Hidx "l" i) as [l ->]; [by (apply list_elem_of_In; simpl; tauto) |].
    destruct (Hidx "c" i) as [c ->]; [by (apply list_elem_of_In; simpl; tauto) |].
    destruct (Hidx "v" i) as [vol ->]; [by (apply list_elem_of_In; simpl; tauto) |].
    by eexists.
  - unfold no_data. rewrite Htruthy, Hok, Hc. simpl. rewrite Hnc.
    apply bool_decide_ext. split; [by intros [= ->] | by intros ->].
  - unfold live_usable, no_data. rewrite Htruthy, Hok, Hc. simpl. rewrite Hnc.
    destruct n; [done |]. rewrite bool_decide_eq_true_2 by lia.
    by rewrite bool_decide_eq_false_2.
  - intros rows. split; [done |]. intros k Hk. unfold series_keys in Hk.
    repeat (apply elem_of_cons in Hk as [-> | Hk];
            [eexists; split; [reflexivity | by rewrite length_fmap] |]).
    by apply elem_of_nil in Hk.
Qed.

End Properties.

(** ** The screener trigger *)

(** Two handlers that have both read the row before either resumes are both
    confirmed, whatever the job does once it starts. *)
Lemma both_readers_are_granted universe (s : JobCoordinator.server) :
  universe ∈ JobCoordinator.universes →
  JobCoordinator.jobState s !! universe ≠ Some JobCoordinator.RUNNING →
  JobCoordinator.awaiting s = [] →
  JobCoordinator.replies
    (JobCoordinator.run
       [JobCoordinator.Arrive 1 universe; JobCoordinator.Arrive 2 universe;
        JobCoordinator.Resume 1; JobCoordinator.Resume 2] s)
  = JobCoordinator.replies s
    ++ [(1%nat, JobCoordinator.Queued universe); (2%nat, JobCoordinator.Queued universe)].
Proof.
  intros Hu Hidle Hnone.
  unfold JobCoordinator.run. simpl.
  unfold JobCoordinator.handler_begin. rewrite !bool_decide_eq_true_2 by done. simpl.
  unfold JobCoordinator.handler_resume. simpl. rewrite Hnone. simpl.
  destruct (JobCoordinator.jobState s !! universe) as [[] |] eqn:Hrow; try done;
    simpl; by rewrite <- app_assoc.
Qed.

(** A trigger that arrives after the job of an earlier one has started is
    refused. *)
Lemma later_trigger_is_refused :
  JobCoordinator.replies
    (JobCoordinator.run
       [JobCoordinator.Arrive 1 "SP500"; JobCoordinator.Resume 1; JobCoordinator.Immediate;
        JobCoordinator.Arrive 2 "SP500"; JobCoordinator.Resume 2] JobCoordinator.boot)
  = [(1%nat, JobCoordinator.Queued "SP500"); (2%nat, JobCoordinator.Conflict409)].
Proof. vm_compute. reflexivity. Qed.

(** C1, at two triggers for SP500 on a fresh table whose reads are both
    answered before either handler resumes: both are confirmed, none is
    refused, and two jobs start for the one id. *)
Theorem concurrent_triggers_are_both_granted :
  let s := JobCoordinator.run
             [JobCoordinator.Arrive 1 "SP500"; JobCoordinator.Arrive 2 "SP500";
              JobCoordinator.Resume 1; JobCoordinator.Resume 2;
              JobCoordinator.Immediate; JobCoordinator.Immediate] JobCoordinator.boot in
  JobCoordinator.replies s
  = [(1%nat, JobCoordinator.Queued "SP500"); (2%nat, JobCoordinator.Queued "SP500")]
  ∧ List.filter JobCoordinator.granted (JobCoordinator.replies s) = JobCoordinator.replies s
  ∧ JobCoordinator.started s = ["SP500"; "SP500"].
Proof. vm_compute. done. Qed.

(** One turn of the event loop, counted. *)
Lemma step_counts (s : JobCoordinator.server) t :
  (List.length (List.filter JobCoordinator.granted
                  (JobCoordinator.replies (JobCoordinator.step s t)))
   + List.length (JobCoordinator.immediates s)
   + List.length (JobCoordinator.started s)
   = List.length (List.filter JobCoordinator.granted (JobCoordinator.replies s))
     + List.length (JobCoordinator.immediates (JobCoordinator.step s t))
     + List.length (JobCoordinator.started (JobCoordinator.step s t)))%nat
  ∧ (t ≠ JobCoordinator.Immediate →
     JobCoordinator.jobState (JobCoordinator.step s t) = JobCoordinator.jobState s
     ∧ JobCoordinator.started (JobCoordinator.step s t) = JobCoordinator.started s).
Proof.
  destruct t as [request universe | request |]; simpl.
  - unfold JobCoordinator.handler_begin.
    by destruct (bool_decide (universe ∈ JobCoordinator.universes)).
  - unfold JobCoordinator.handler_resume.
    destruct (list_find _ (JobCoordinator.awaiting s)) as [[i [r [universe row]]] |];
      [| done].
    destruct row as [[] |]; cbn [JobCoordinator.replies JobCoordinator.immediates
                                 JobCoordinator.started JobCoordinator.jobState];
      rewrite List.filter_app, !length_app; simpl; (split; [lia | done]).
  - unfold JobCoordinator.run_immediate.
    destruct (JobCoordinator.immediates s) as [| universe queue] eqn:Hqueue; simpl;
      rewrite ?Hqueue, ?length_app; simpl; (split; [lia | done]).
Qed.

(** X21.  Every confirmation of the screener trigger stands for one job,
    queued or started: through every schedule the confirmations sent grow by
    exactly the jobs queued and started, so no job starts unconfirmed and no
    confirmed job is lost.  The handler itself never writes the job state: a
    schedule in which no queued job runs leaves the table as it was. *)
Theorem confirmations_match_jobs schedule (s : JobCoordinator.server) :
  let s' := JobCoordinator.run schedule s in
  (List.length (List.filter JobCoordinator.granted (JobCoordinator.replies s'))
   + List.length (JobCoordinator.immediates s)
   + List.length (JobCoordinator.started s)
   = List.length (List.filter JobCoordinator.granted (JobCoordinator.replies s))
     + List.length (JobCoordinator.immediates s')
     + List.length (JobCoordinator.started s'))%nat
  ∧ (JobCoordinator.Immediate ∉ schedule →
     JobCoordinator.jobState s' = JobCoordinator.jobState s
     ∧ JobCoordinator.started s' = JobCoordinator.started s).
Proof.
  cbv zeta. unfold JobCoordinator.run. revert s.
  induction schedule as [| t rest IH]; intros s; [done |].
  cbn [foldl]. destruct (IH (JobCoordinator.step s t)) as [Hcount Hstate].
  destruct (step_counts s t) as [Hstep Hkeep].
  split; [lia |].
  intros Hnot. apply not_elem_of_cons in Hnot as [Hne Hrest].
  destruct (Hstate Hrest) as [-> ->]. apply Hkeep. congruence.
Qed.

(** ** The stored key hint *)






(** ** The asset type repair *)

Section Repair.
Context {details : Type}.
Implicit Types (r a : FixCryptoAssets.asset details).
Implicit Types (table assets : list (FixCryptoAssets.asset details)).

Lemma update_type_retyped sym table :
  FixCryptoAssets.update_type sym table = FixCryptoAssets.retyped [sym] <$> table.
Proof.
  unfold FixCryptoAssets.update_type. apply list_fmap_ext. intros _ r _.
  unfold FixCryptoAssets.retyped.
  destruct (String.eqb_spec (FixCryptoAssets.symbol r) sym) as [Heq | Hne].
  - rewrite bool_decide_eq_true_2; [done | rewrite Heq; left].
  - rewrite bool_decide_eq_false_2; [done |]. by intros ?%list_elem_of_singleton.
Qed.

Lemma retyped_twice syms1 syms2 r :
  FixCryptoAssets.retyped syms2 (FixCryptoAssets.retyped syms1 r)
  = FixCryptoAssets.retyped (syms1 ++ syms2) r.
Proof.
  unfold FixCryptoAssets.retyped.
  assert (bool_decide (FixCryptoAssets.symbol r ∈ syms1 ++ syms2)
          = bool_decide (FixCryptoAssets.symbol r ∈ syms1)
            || bool_decide (FixCryptoAssets.symbol r ∈ syms2)) as ->.
  { rewrite <- bool_decide_or. apply bool_decide_ext, elem_of_app. }
  destruct (bool_decide (FixCryptoAssets.symbol r ∈ syms1)); simpl;
    by destruct (bool_decide (FixCryptoAssets.symbol r ∈ syms2)).
Qed.

(** The loop, by what it has updated. *)
Lemma fix_loop_run refuses assets : ∀ updated table,
  ∃ syms,
    (FixCryptoAssets.fix_loop refuses assets updated table).2
    = FixCryptoAssets.retyped syms <$> table
    ∧ (∀ sym, sym ∈ syms → FixCryptoAssets.endsWith sym "USDT" = true)
    ∧ ∀ n, (FixCryptoAssets.fix_loop refuses assets updated table).1 = Return n →
           syms = FixCryptoAssets.symbol <$> List.filter FixCryptoAssets.mislabeled assets
           ∧ n = (updated + List.length (List.filter FixCryptoAssets.mislabeled assets))%nat.
Proof.
  induction assets as [| a rest IH]; intros updated table.
  - exists []. simpl. split; [| split].
    + symmetry. etrans; [| apply list_fmap_id]. apply list_fmap_ext. by intros.
    + intros sym Hin. by apply elem_of_nil in Hin.
    + intros n [= <-]. split; [done | lia].
  - cbn [FixCryptoAssets.fix_loop List.filter].
    destruct (FixCryptoAssets.mislabeled a) eqn:Hmis.
    + destruct (refuses updated).
      * exists []. simpl. split; [| split; [| done]].
        -- symmetry. etrans; [| apply list_fmap_id]. apply list_fmap_ext. by intros.
        -- intros sym Hin. by apply elem_of_nil in Hin.
      * destruct (IH (S updated)
                    (FixCryptoAssets.update_type (FixCryptoAssets.symbol a) table))
          as (syms & Htable & Husdt & Hdone).
        exists (FixCryptoAssets.symbol a :: syms). split; [| split].
        -- rewrite Htable, update_type_retyped, <- list_fmap_compose.
           apply list_fmap_ext. intros _ r _. simpl. apply retyped_twice.
        -- intros sym [-> | Hin]%elem_of_cons; [| by apply Husdt].
           unfold FixCryptoAssets.mislabeled in Hmis.
           by apply andb_true_iff in Hmis as [? _].
        -- intros n Hn. destruct (Hdone n Hn) as [-> ->]. split; [done |].
           simpl. lia.
    + apply IH.
Qed.

Lemma retyped_cases syms r :
  (∀ sym, sym ∈ syms → FixCryptoAssets.endsWith sym "USDT" = true) →
  FixCryptoAssets.retyped syms r = r
  ∨ FixCryptoAssets.retyped syms r = FixCryptoAssets.repaired r.
Proof.
  intros Husdt. unfold FixCryptoAssets.retyped, FixCryptoAssets.repaired.
  destruct (bool_decide (FixCryptoAssets.symbol r ∈ syms)) eqn:Hin; [| by left].
  apply bool_decide_eq_true in Hin. right. by rewrite (Husdt _ Hin).
Qed.

Lemma retyped_all table r :
  r ∈ table →
  FixCryptoAssets.retyped
    (FixCryptoAssets.symbol <$> List.filter FixCryptoAssets.mislabeled table) r
  = FixCryptoAssets.repaired r.
Proof.
  intros Hr. unfold FixCryptoAssets.retyped, FixCryptoAssets.repaired.
  destruct (FixCryptoAssets.endsWith (FixCryptoAssets.symbol r) "USDT") eqn:Husdt.
  - destruct (String.eqb (FixCryptoAssets.type r) "CRYPTO") eqn:Htype.
    + apply String.eqb_eq in Htype.
      assert (FixCryptoAssets.as_crypto r = r) as ->
        by (destruct r; simpl in *; by subst).
      by destruct (bool_decide _).
    + rewrite bool_decide_eq_true_2; [done |].
      apply list_elem_of_fmap. exists r. split; [done |].
      apply list_elem_of_In, List.filter_In. split; [by apply list_elem_of_In |].
      unfold FixCryptoAssets.mislabeled. by rewrite Husdt, Htype.
  - rewrite bool_decide_eq_false_2; [done |].
    intros (r' & Hsym & Hin)%list_elem_of_fmap.
    apply list_elem_of_In, List.filter_In in Hin as [_ Hmis].
    unfold FixCryptoAssets.mislabeled in Hmis.
    apply andb_true_iff in Hmis as [Hends _]. rewrite <- Hsym in Hends. congruence.
Qed.

Lemma fix_loop_nothing_to_do refuses assets updated table :
  (∀ a, a ∈ assets → FixCryptoAssets.mislabeled a = false) →
  FixCryptoAssets.fix_loop refuses assets updated table = (Return updated, table).
Proof.
  induction assets as [| a rest IH]; intros Hnone; [done |].
  cbn [FixCryptoAssets.fix_loop]. rewrite (Hnone a) by left.
  apply IH. intros a' Hin. apply Hnone. by right.
Qed.

Lemma repaired_is_labeled r :
  FixCryptoAssets.mislabeled (FixCryptoAssets.repaired r) = false.
Proof.
  unfold FixCryptoAssets.mislabeled, FixCryptoAssets.repaired.
  destruct (FixCryptoAssets.endsWith (FixCryptoAssets.symbol r) "USDT") eqn:Husdt; simpl.
  - by rewrite andb_false_r.
  - by rewrite Husdt.
Qed.

(** X23.  The asset type repair does what it says and no more.  However it
    ends, each row is left as it was or repaired: only the type changes, only
    to CRYPTO and only on symbols that end in USDT.  When it completes, every
    row is repaired, the number it reports is the number of rows that were
    mislabeled, and running it again updates nothing. *)
Theorem repair_fixes_usdt_assets_only refuses table :
  let result := FixCryptoAssets.main refuses table in
  Forall2 (λ r r', r' = r ∨ r' = FixCryptoAssets.repaired r) table result.2
  ∧ ∀ n, result.1 = Return n →
         result.2 = FixCryptoAssets.repaired <$> table
         ∧ n = List.length (List.filter FixCryptoAssets.mislabeled table)
         ∧ ∀ refuses', FixCryptoAssets.main refuses' result.2 = (Return 0%nat, result.2).
Proof.
  cbv zeta. unfold FixCryptoAssets.main.
  destruct (fix_loop_run refuses table 0%nat table) as (syms & Htable & Husdt & Hdone).
  split.
  - rewrite Htable. apply Forall2_fmap_r, Forall_Forall2_diag, Forall_forall.
    intros r _. by apply retyped_cases.
  - intros n Hn. destruct (Hdone n Hn) as [Hsyms ->].
    assert ((FixCryptoAssets.fix_loop refuses table 0 table).2
            = FixCryptoAssets.repaired <$> table) as Hall.
    { rewrite Htable, Hsyms. apply list_fmap_ext. intros i r Hr.
      apply retyped_all. by eapply list_elem_of_lookup_2. }
    split; [done |]. split; [done |].
    intros refuses'. rewrite Hall.
    apply fix_loop_nothing_to_do.
    intros a (r & -> & _)%list_elem_of_fmap. apply repaired_is_labeled.
Qed.
End Repair.

(** ** The superadmin account *)

(** X24.  The bootstrap of the superadmin only ever adds the account or
    raises its role.  It leaves every other account as it was, never changes
    the password hash of an account that exists, and changes nothing when the
    variables are not set or the database fails.  When it has created,
    elevated or found the account, the account has the ADMIN role, and a
    second run whose read the database answers leaves everything untouched. *)
Theorem bootstrap_only_adds_or_elevates bcrypt_hash refuses email password
  (users : gmap string SuperAdmin.user) :
  let result := SuperAdmin.bootstrapSuperAdmin bcrypt_hash refuses email password users in
  (∀ other, Some other ≠ email → result.2 !! other = users !! other)
  ∧ (∀ e u, users !! e = Some u →
            ∃ u', result.2 !! e = Some u'
                  ∧ SuperAdmin.passwordHash u' = SuperAdmin.passwordHash u)
  ∧ match result.1 with
    | SuperAdmin.Skipped | SuperAdmin.Failed => result.2 = users
    | _ =>
        (∃ e u, email = Some e ∧ result.2 !! e = Some u ∧ SuperAdmin.role u = "ADMIN")
        ∧ ∀ bcrypt_hash' refuses',
            refuses' 0%nat = false →
            SuperAdmin.bootstrapSuperAdmin bcrypt_hash' refuses' email password result.2
            = (SuperAdmin.Untouched, result.2)
    end.
Proof.
  cbv zeta. unfold SuperAdmin.bootstrapSuperAdmin.
  destruct (SuperAdmin.unset email || SuperAdmin.unset password) eqn:Hset.
  { simpl. split; [done |]. split; [| done]. intros e u Hu. by exists u. }
  destruct email as [e0 |]; [| by simpl in Hset]. simpl.
  destruct (refuses 0%nat).
  { simpl. split; [done |]. split; [| done]. intros e u Hu. by exists u. }
  destruct (users !! e0) as [existing |] eqn:Hrow.
  - destruct (String.eqb (SuperAdmin.role existing) "ADMIN") eqn:Hrole; simpl.
    + split; [done |]. split; [intros e u Hu; by exists u |]. split.
      * exists e0, existing. by apply String.eqb_eq in Hrole.
      * intros bcrypt_hash' refuses' ->. by rewrite Hrow, Hrole.
    + destruct (refuses 1%nat); simpl.
      { split; [done |]. split; [| done]. intros e u Hu. by exists u. }
      split; [| split; [| split]].
      * intros other Hother. apply lookup_insert_ne. congruence.
      * intros e u Hu. destruct (decide (e = e0)) as [-> | Hne].
        -- rewrite lookup_insert_eq. eexists. split; [done |]. simpl. congruence.
        -- rewrite lookup_insert_ne by done. by exists u.
      * eexists e0, _. split; [done |]. by rewrite lookup_insert_eq.
      * intros bcrypt_hash' refuses' ->. by rewrite lookup_insert_eq.
  - destruct (refuses 1%nat); simpl.
    { split; [done |]. split; [| done]. intros e u Hu. by exists u. }
    split; [| split; [| split]].
    + intros other Hother. apply lookup_insert_ne. congruence.
    + intros e u Hu. destruct (decide (e = e0)) as [-> | Hne]; [congruence |].
      rewrite lookup_insert_ne by done. by exists u.
    + eexists e0, _. split; [done |]. by rewrite lookup_insert_eq.
    + intros bcrypt_hash' refuses' ->. by rewrite lookup_insert_eq.
Qed.

(** X25.  The superadmin reset exits with 1 and changes nothing exactly when
    a variable is not set or the database rejects one of its two calls.
    Otherwise the account of the configured email holds the hash of the
    configured password and the ADMIN role, whether it existed before or
    not, and every other account is as it was. *)
Theorem reset_sets_hash_and_role bcrypt_hash refuses email password
  (users : gmap string SuperAdmin.user) :
  let result := SuperAdmin.resetAdmin bcrypt_hash refuses email password users in
  if SuperAdmin.unset email || SuperAdmin.unset password || refuses 0%nat || refuses 1%nat
  then result = (SuperAdmin.Exit1, users)
  else ∃ e p,
      email = Some e ∧ password = Some p
      ∧ result.1 = match users !! e with
                   | Some _ => SuperAdmin.PasswordReset
                   | None => SuperAdmin.Created
                   end
      ∧ result.2 !! e
        = Some {| SuperAdmin.passwordHash := bcrypt_hash p; SuperAdmin.role := "ADMIN" |}
      ∧ ∀ other, other ≠ e → result.2 !! other = users !! other.
Proof.
  cbv zeta. unfold SuperAdmin.resetAdmin.
  destruct (SuperAdmin.unset email || SuperAdmin.unset password) eqn:Hset; [done |].
  destruct email as [e |]; [| done]. destruct password as [p |]; [| by rewrite orb_true_r in Hset].
  simpl. destruct (refuses 0%nat); [done |]. simpl.
  destruct (refuses 1%nat); [by destruct (users !! e) |].
  exists e, p. split; [done |]. split; [done |].
  destruct (users !! e); simpl;
    (split; [done |]; split; [by rewrite lookup_insert_eq |]);
    intros other Hne; by rewrite lookup_insert_ne.
Qed.

(** ** The properties on concrete inputs *)

#[local] Existing Instance Sample.runtime.

(** C2 on a fresh cached quote for AAPL: the stored object comes back and
    nothing leaves the process. *)
Lemma cache_hit_makes_no_call_witness :
  persisted Sample.world_av_cached "quote:av:AAPL"
  = Some {| payloadJson := "{}"; isStale := false; source := "SAMPLE" |}
  ∧ (run_op (AV_getQuote "AAPL") Sample.world_av_cached).1 = Return (JObj [])
  ∧ List.filter outbound (events (run_op (AV_getQuote "AAPL") Sample.world_av_cached).2) = [].
Proof.
  assert (persisted Sample.world_av_cached (key_of (AV_getQuote "AAPL"))
          = Some {| payloadJson := "{}"; isStale := false; source := "SAMPLE" |}) as Hc
    by (vm_compute; reflexivity).
  destruct (cache_hit_makes_no_call (AV_getQuote "AAPL") Sample.world_av_cached _ Hc eq_refl)
    as (_ & Hv & _ & Hout & _).
  split; [exact Hc |]. split; [apply Hv; reflexivity | exact Hout].
Defined.






(** C9, as amended, with nothing cached and the venue unreachable. *)
Lemma crypto_candles_reject_only_on_unparseable_cache_witness :
  cache_hit (persisted (Sample.fresh Sample.offline) "candle:binance:BTCUSDT:1d:180") = None
  ∧ (BinanceProvider_getCandles "BTCUSDT" (JStr "1d") (JNum (Sample.Int 180))
       (Sample.fresh Sample.offline)).1
    = Return error_series.
Proof.
  split; [vm_compute; reflexivity |].
  destruct (crypto_candles_reject_only_on_unparseable_cache "BTCUSDT" (JStr "1d")
              (JNum (Sample.Int 180)) (Sample.fresh Sample.offline)) as (Hmiss & _).
  destruct Hmiss as (_ & Hfail); [vm_compute; reflexivity |].
  apply Hfail. vm_compute. reflexivity.
Defined.

(** C10 on a hot entry written long before the clock of the world. *)
Lemma hot_quote_served_as_stored_witness :
  memoryCache Sample.world_hot_btc !! "quote:BTCUSDT" = Some (JObj Sample.btc_hot)
  ∧ (BinanceProvider_getQuote "BTCUSDT" Sample.world_hot_btc).1 = Return (JObj Sample.btc_hot)
  ∧ List.filter cache_or_rest (events (BinanceProvider_getQuote "BTCUSDT" Sample.world_hot_btc).2)
    = [].
Proof.
  assert (memoryCache Sample.world_hot_btc !! ("quote:" +:+ "BTCUSDT")
          = Some (JObj Sample.btc_hot)) as Hmem by (vm_compute; reflexivity).
  destruct (hot_quote_served_as_stored "BTCUSDT" Sample.world_hot_btc Sample.btc_hot Hmem)
    as (Hrun & Hev & _).
  split; [exact Hmem |]. split; [by rewrite Hrun | exact Hev].
Defined.

(** The backfill [getCandles] started fills the table when it runs, here
    once the cached series has expired. *)
Example spawned_backfill_runs_later :
  let w := (PriceHistoryService_getCandles "BTCUSDT" CRYPTO 400 Sample.world_venue_up).2 in
  priceHistory w = []
  ∧ ph_date <$> priceHistory (run_task (TaskBackfill "BTCUSDT" CRYPTO)
                                (Sample.later 301000 w)).2
    = ["2023-11-14"; "2023-11-15"].
Proof. vm_compute. done. Qed.

(** ** Where the claims fail *)

(** C4 on the sample venue: the token "constructor" gets the error series,
    the token "6m" the klines. *)
Example inherited_token_on_the_venue :
  let w := Sample.fresh (Sample.with_network Sample.venue_strict Sample.offline) in
  (MarketData_getCandles "BTCUSDT" CRYPTO "constructor" w).1 = Return error_series
  ∧ (MarketData_getCandles "BTCUSDT" CRYPTO "6m" w).1 = Return Sample.btc_series.
Proof. vm_compute. done. Qed.


(** C9 as stated fails on a fresh cache entry that is not JSON: [getCandles]
    rejects with the SyntaxError of [JSON.parse], and so does the router's
    CRYPTO candle path. *)
Lemma unparseable_cached_candles_reject :
  cache_hit (persisted Sample.world_bad_candle_cache "candle:binance:BTCUSDT:1d:180")
  = Some {| payloadJson := "not json"; isStale := false; source := "SAMPLE" |}
  ∧ (BinanceProvider_getCandles "BTCUSDT" (JStr "1d") (JNum (Sample.Int 180))
       Sample.world_bad_candle_cache).1 = Throw SyntaxError
  ∧ (MarketData_getCandles "BTCUSDT" CRYPTO "6m" Sample.world_bad_candle_cache).1
    = Throw SyntaxError.
Proof. vm_compute. done. Qed.


(** X4 with a ticker for BTCUSDT delivered to a fresh process. *)
Lemma ticker_is_served_next_witness :
  JSON_parse (Runtime := Sample.stream_runtime) Sample.btc_ticker_text
  = Some Sample.btc_ticker
  ∧ (BinanceProvider_getQuote (RT := Sample.stream_runtime) "BTCUSDT"
       (BinanceProvider_onMessage (RT := Sample.stream_runtime) Sample.btc_ticker_text
          (Sample.fresh Sample.offline)).2).1
    = Return (ticker_quote (RT := Sample.stream_runtime) Sample.btc_ticker).
Proof.
  split; [reflexivity |].
  apply (ticker_is_served_next (RT := Sample.stream_runtime) Sample.btc_ticker_text
           (Sample.fresh Sample.offline) Sample.btc_ticker "BTCUSDT");
    reflexivity.
Defined.

(** X5 on a fresh persisted quote for BTCUSDT with the venue unreachable. *)
Lemma persisted_quote_is_served_without_rest_witness :
  persisted Sample.world_fresh_btc "quote:BTCUSDT"
  = Some {| payloadJson := "{}"; isStale := false; source := "SAMPLE" |}
  ∧ (BinanceProvider_getQuote "BTCUSDT" Sample.world_fresh_btc).1 = Return (JObj [])
  ∧ List.filter is_fetch (events (BinanceProvider_getQuote "BTCUSDT" Sample.world_fresh_btc).2)
    = [].
Proof.
  assert (persisted Sample.world_fresh_btc ("quote:" +:+ "BTCUSDT")
          = Some {| payloadJson := "{}"; isStale := false; source := "SAMPLE" |}) as Hc
    by (vm_compute; reflexivity).
  destruct (persisted_quote_is_served_without_rest "BTCUSDT" Sample.world_fresh_btc _
              eq_refl Hc eq_refl) as (Hv & Hfetch & _).
  split; [exact Hc |]. split; [exact Hv | exact Hfetch].
Defined.


(** X7 with AlphaVantage unreachable: the rejection leaves the cache
    empty. *)
Lemma failures_are_not_cached_witness :
  (run_op (AV_getQuote "AAPL") (Sample.fresh Sample.offline)).1 = Throw FetchFailed
  ∧ cacheStore (run_op (AV_getQuote "AAPL") (Sample.fresh Sample.offline)).2 = ∅.
Proof.
  assert ((run_op (AV_getQuote "AAPL") (Sample.fresh Sample.offline)).1
          = Throw FetchFailed) as Hthrow by (vm_compute; reflexivity).
  split; [exact Hthrow |].
  apply (failures_are_not_cached (AV_getQuote "AAPL") (Sample.fresh Sample.offline)).
  rewrite Hthrow. exact I.
Defined.

(** X8 with the venue unreachable and nothing cached: the rejection leaves
    the cache empty. *)
Lemma rest_quote_is_stored_unless_the_call_fails_witness :
  (BinanceProvider_getQuote "BTCUSDT" (Sample.fresh Sample.offline)).1
  = Throw (Error "No crypto quote available")
  ∧ cacheStore (BinanceProvider_getQuote "BTCUSDT" (Sample.fresh Sample.offline)).2 = ∅.
Proof.
  split; [vm_compute; reflexivity |].
  exact (rest_quote_is_stored_unless_the_call_fails "BTCUSDT" (Sample.fresh Sample.offline)
           eq_refl eq_refl).
Defined.



(** X11 on 2023-11-14 with a Finnhub that rejects the news and answers the
    metrics. *)
Lemma news_and_metrics_never_reject_witness :
  isoDay_of_ms (clock (env Sample.world_finnhub_details)) = Some "2023-11-14"
  ∧ isoDay_of_ms (clock (env Sample.world_finnhub_details) - 7 * 24 * 60 * 60 * 1000)
    = Some "2023-11-07"
  ∧ (MarketData_getNews "AAPL" STOCK Sample.world_finnhub_details).1 = Return (JArr [])
  ∧ (MarketData_getMetrics "AAPL" STOCK Sample.world_finnhub_details).1 = Return (JObj []).
Proof.
  assert (isoDay_of_ms (clock (env Sample.world_finnhub_details)) = Some "2023-11-14")
    as Hto by (vm_compute; reflexivity).
  assert (isoDay_of_ms (clock (env Sample.world_finnhub_details) - 7 * 24 * 60 * 60 * 1000)
          = Some "2023-11-07") as Hfrom by (vm_compute; reflexivity).
  split; [exact Hto |]. split; [exact Hfrom |].
  destruct (news_and_metrics_never_reject "AAPL" STOCK Sample.world_finnhub_details
              "2023-11-07" "2023-11-14" Hto Hfrom) as [Hnews Hmetrics].
  split; [by rewrite Hnews | by rewrite Hmetrics].
Defined.

(** X13 with a row of ETHUSDT in the store and a backfill of BTCUSDT. *)
Lemma writers_leave_other_symbols_alone_witness :
  count_in (priceHistory (PriceHistoryService_backfillSymbol "BTCUSDT" CRYPTO
                            Sample.world_with_eth).2) "BTCUSDT" = 2%nat
  ∧ rows_of "ETHUSDT" (priceHistory (PriceHistoryService_backfillSymbol "BTCUSDT" CRYPTO
                                       Sample.world_with_eth).2)
    = [Sample.eth_row].
Proof.
  split; [vm_compute; reflexivity |].
  destruct (writers_leave_other_symbols_alone "BTCUSDT" CRYPTO "ETHUSDT"
              Sample.world_with_eth) as [Hbackfill _].
  { discriminate. }
  rewrite Hbackfill. reflexivity.
Defined.

(** X15 with the venue unreachable: the backfill of BTCUSDT resolves with 0
    and the store stays empty. *)
Lemma backfill_without_data_writes_nothing_witness :
  (MarketData_getCandles "BTCUSDT" CRYPTO "2y" (Sample.fresh Sample.offline)).1
  = Return error_series
  ∧ (PriceHistoryService_backfillSymbol "BTCUSDT" CRYPTO (Sample.fresh Sample.offline)).1
    = Return 0%nat
  ∧ priceHistory (PriceHistoryService_backfillSymbol "BTCUSDT" CRYPTO
                    (Sample.fresh Sample.offline)).2 = [].
Proof.
  split; [vm_compute; reflexivity |].
  destruct (backfill_without_data_writes_nothing "BTCUSDT" CRYPTO
              (Sample.fresh Sample.offline)) as (Hzero & _ & _ & Htable).
  { vm_compute. reflexivity. }
  split; [exact Hzero | exact Htable].
Defined.

(** X18 on a process that tracks BTCUSDT, connects, loses the socket twice in
    a row and reconnects. *)
Lemma reconnects_never_pile_up_witness :
  let evs := [Tracks "BTCUSDT"; SocketOpens; SocketCloses; SocketCloses; TimerDue 1;
              SocketOpens] in
  settled Sample.feed_boot
  ∧ (List.length (pending (feed_run evs Sample.feed_boot)) ≤ 1)%nat
  ∧ "BTCUSDT" ∈ trackedSymbols (feed_world (feed_run evs Sample.feed_boot))
  ∧ ws (feed_world (feed_run evs Sample.feed_boot)) = Some OPEN.
Proof.
  intros evs.
  assert (settled Sample.feed_boot) as Hboot.
  { split; [by left |]. intros _ Htracked. by destruct Htracked. }
  split; [exact Hboot |].
  destruct (reconnects_never_pile_up evs Sample.feed_boot Hboot) as (_ & Hone & _).
  split; [exact Hone |]. split; [vm_compute; left | vm_compute; reflexivity].
Defined.

(** X19 on the klines of BTCUSDT. *)
Lemma fetched_series_are_rectangular_witness :
  let op := Binance_getCandles "BTCUSDT" (JStr "1d") (JNum (Sample.Int 180)) in
  (run_op op Sample.world_venue_up).1 = Return Sample.btc_series
  ∧ ∃ n, rectangular n Sample.btc_series.
Proof.
  intros op.
  assert ((run_op op Sample.world_venue_up).1 = Return Sample.btc_series) as Hv
    by (vm_compute; reflexivity).
  split; [exact Hv |].
  apply (fetched_series_are_rectangular op Sample.world_venue_up Sample.btc_series
           (run_op op Sample.world_venue_up).2).
  - reflexivity.
  - vm_compute. reflexivity.
  - rewrite (surjective_pairing (run_op op Sample.world_venue_up)) at 1. by rewrite Hv.
  - simpl. discriminate.
Defined.

(** X20 on the two bars of the BTCUSDT series. *)
Lemma rectangular_series_fit_the_store_witness :
  rectangular 2 Sample.btc_series
  ∧ no_data Sample.btc_series = false
  ∧ bar_at Sample.btc_series 1 = Some Sample.second_bar.
Proof.
  assert (rectangular 2 Sample.btc_series) as Hrect.
  { split; [reflexivity |]. intros k Hk. unfold series_keys in Hk.
    repeat (apply elem_of_cons in Hk as [-> | Hk]; [by eexists |]).
    by apply elem_of_nil in Hk. }
  split; [exact Hrect |].
  destruct (rectangular_series_fit_the_store 2 Sample.btc_series Hrect)
    as (_ & _ & Hdata & _).
  split; [exact Hdata | reflexivity].
Defined.
